(** * Verification of the job-finder backend's extraction pipelines

    Shallow embedding of the pure parts of [linkedin_scraper.py],
    [resume_parser.py] and [main.py]: the experience-level mapping, the
    search-query construction, per-card extraction with its cap, job
    categorisation, PDF text concatenation and the regular-expression based
    field extraction of the resume parser.

    Strings are modelled as ASCII ([String.string] / [list ascii]); the
    character classes [\d], [\s] and [\b] of Python's [re] are given their
    ASCII meaning, which is exact on ASCII input. *)

From Stdlib Require Import String Ascii List Bool Arith ZArith Lia Sorted.
Import ListNotations.
Open Scope string_scope.

(** ** Python string helpers *)

Module Py.

Local Open Scope nat_scope.

Definition is_upper (c : ascii) : bool :=
  let n := nat_of_ascii c in (65 <=? n) && (n <=? 90).
Definition is_lower (c : ascii) : bool :=
  let n := nat_of_ascii c in (97 <=? n) && (n <=? 122).
Definition is_digit (c : ascii) : bool :=
  let n := nat_of_ascii c in (48 <=? n) && (n <=? 57).
Definition is_alpha (c : ascii) : bool := is_upper c || is_lower c.

(** [\s] and [str.isspace()] on ASCII: space, \t, \n, \v, \f, \r and
    the separators \x1c-\x1f. *)
Definition is_space (c : ascii) : bool :=
  let n := nat_of_ascii c in
  (n =? 32) || ((9 <=? n) && (n <=? 13)) || ((28 <=? n) && (n <=? 31)).

(** [\w] on ASCII: letters, digits and underscore. *)
Definition is_word (c : ascii) : bool :=
  is_alpha c || is_digit c || (nat_of_ascii c =? 95).

Definition to_lower_char (c : ascii) : ascii :=
  if is_upper c then ascii_of_nat (nat_of_ascii c + 32) else c.
Definition to_upper_char (c : ascii) : ascii :=
  if is_lower c then ascii_of_nat (nat_of_ascii c - 32) else c.

(** [str.lower()] *)
Fixpoint lower (s : string) : string :=
  match s with
  | EmptyString => EmptyString
  | String c s' => String (to_lower_char c) (lower s')
  end.

(** [str.title()]: a cased character following an uncased one is
    upper-cased, any other cased character is lower-cased. *)
Fixpoint title_from (prev_cased : bool) (s : string) : string :=
  match s with
  | EmptyString => EmptyString
  | String c s' =>
      if is_alpha c then
        String (if prev_cased then to_lower_char c else to_upper_char c)
               (title_from true s')
      else String c (title_from false s')
  end.
Definition title (s : string) : string := title_from false s.

(** [needle in hay] for strings. *)
Fixpoint str_in (needle hay : string) : bool :=
  prefix needle hay ||
  match hay with
  | EmptyString => false
  | String _ hay' => str_in needle hay'
  end.

(** [s.replace(old_char, new)] for a one-character [old]. *)
Fixpoint replace_char (old : ascii) (new s : string) : string :=
  match s with
  | EmptyString => EmptyString
  | String c s' =>
      if Ascii.eqb c old then new ++ replace_char old new s'
      else String c (replace_char old new s')
  end.

(** [s.strip()] *)
Fixpoint lstrip (s : string) : string :=
  match s with
  | EmptyString => EmptyString
  | String c s' => if is_space c then lstrip s' else s
  end.
Definition rev_string (s : string) : string :=
  string_of_list_ascii (rev (list_ascii_of_string s)).
Definition strip (s : string) : string := rev_string (lstrip (rev_string (lstrip s))).

(** [sep.join(xs)] *)
Fixpoint join (sep : string) (xs : list string) : string :=
  match xs with
  | [] => ""
  | [x] => x
  | x :: xs' => x ++ sep ++ join sep xs'
  end.

End Py.

(** ** A fragment of Python's [re]: sequences of literals, greedy
    bounded/unbounded repetitions of a character class, and [\b].

    Every pattern of the sources is of this shape.  Matching is Python's
    backtracking search: a greedy repetition first takes as many
    characters as it can and gives them back one at a time. *)

Module Re.

Local Open Scope nat_scope.

Inductive atom : Type :=
| Lit (c : ascii)
| Cls (p : ascii -> bool) (lo : nat) (hi : option nat)
| WordB.

Definition pattern := list atom.

(** Number of leading characters of [s] in the class, capped by [hi]. *)
Fixpoint run (p : ascii -> bool) (hi : option nat) (s : list ascii) : nat :=
  match hi with
  | Some 0 => 0
  | _ =>
      match s with
      | [] => 0
      | c :: s' =>
          if p c then S (run p (option_map pred hi) s') else 0
      end
  end.

Definition word_at (l : list ascii) : bool :=
  match l with [] => false | c :: _ => Py.is_word c end.

(** [\b] at the position between [before] (reversed) and [after]. *)
Definition boundary (before after : list ascii) : bool :=
  xorb (word_at before) (word_at after).

(** [mtch pat before after] runs [pat] anchored at the position
    between [before] (reversed prefix) and [after]; on success it returns
    the input left after the match. *)
Fixpoint mtch (pat : pattern) (before after : list ascii) : option (list ascii) :=
  match pat with
  | [] => Some after
  | Lit c :: rest =>
      match after with
      | d :: after' => if Ascii.eqb c d then mtch rest (d :: before) after' else None
      | [] => None
      end
  | WordB :: rest => if boundary before after then mtch rest before after else None
  | Cls p lo hi :: rest =>
      let fix back (n : nat) : option (list ascii) :=
        let here :=
          if lo <=? n then mtch rest (rev_append (firstn n after) before) (skipn n after)
          else None in
        match here with
        | Some r => Some r
        | None => match n with 0 => None | S m => back m end
        end
      in back (run p hi after)
  end.

(** [re.findall]: leftmost matches, scanning on from the end of each
    match (the patterns used here never match the empty string). *)
Fixpoint scan (fuel : nat) (pat : pattern) (before after : list ascii)
  : list (list ascii) :=
  match fuel with
  | 0 => []
  | S f =>
      let skip := match after with
                  | [] => []
                  | c :: a' => scan f pat (c :: before) a'
                  end in
      match mtch pat before after with
      | Some rest =>
          let m := firstn (length after - length rest) after in
          match m with
          | [] => m :: skip
          | _ => m :: scan f pat (rev_append m before) rest
          end
      | None => skip
      end
  end.

Definition findall (pat : pattern) (text : string) : list string :=
  let l := list_ascii_of_string text in
  map string_of_list_ascii (scan (S (length l)) pat [] l).

(** [re.findall(pat, text)[0] if ... else None] *)
Definition first (pat : pattern) (text : string) : option string :=
  hd_error (findall pat text).

End Re.

(** Building blocks for writing the sources' patterns. *)
Module Pat.

Definition in_chars (s : string) (c : ascii) : bool :=
  existsb (Ascii.eqb c) (list_ascii_of_string s).

Definition lits (s : string) : Re.pattern := map Re.Lit (list_ascii_of_string s).

(** [\d] *)
Definition digit := Py.is_digit.
(** [\s] *)
Definition space := Py.is_space.

End Pat.

(** ** resume_parser.py *)

Module ResumeParser.

(** [r'\b[A-Za-z0-9._%+-]+@[A-Za-z0-9.-]+\.[A-Z|a-z]{2,}\b'] *)
Definition email_pattern : Re.pattern :=
  [ Re.WordB;
    Re.Cls (fun c => Py.is_alpha c || Py.is_digit c || Pat.in_chars "._%+-" c) 1 None;
    Re.Lit "@";
    Re.Cls (fun c => Py.is_alpha c || Py.is_digit c || Pat.in_chars ".-" c) 1 None;
    Re.Lit ".";
    Re.Cls (fun c => Py.is_alpha c || Pat.in_chars "|" c) 2 None;
    Re.WordB ].

(** [extract_email] *)
Definition extract_email (text : string) : option string :=
  match Re.findall email_pattern text with
  | [] => None
  | e :: _ => Some e
  end.

(** The four entries of [phone_patterns], in order. *)
(** [r'\+91[-\s]?\d{10}'] *)
Definition phone_p1 : Re.pattern :=
  (Pat.lits "+91" ++
   [ Re.Cls (fun c => Pat.in_chars "-" c || Pat.space c) 0 (Some 1);
     Re.Cls Pat.digit 10 (Some 10) ])%list.
(** [r'\+91\d{10}'] *)
Definition phone_p2 : Re.pattern :=
  (Pat.lits "+91" ++ [ Re.Cls Pat.digit 10 (Some 10) ])%list.
(** [r'\d{10}'] *)
Definition phone_p3 : Re.pattern := [ Re.Cls Pat.digit 10 (Some 10) ].
(** [r'\d{5}\s?\d{5}'] *)
Definition phone_p4 : Re.pattern :=
  [ Re.Cls Pat.digit 5 (Some 5); Re.Cls Pat.space 0 (Some 1);
    Re.Cls Pat.digit 5 (Some 5) ].

Definition phone_patterns : list Re.pattern := [phone_p1; phone_p2; phone_p3; phone_p4].

(** [phones[0].replace(' ', '').replace('-', '')] *)
Definition clean_phone (p : string) : string :=
  Py.replace_char "-" "" (Py.replace_char " " "" p).

(** [extract_phone]: the loop over [phone_patterns]. *)
Fixpoint extract_phone_from (pats : list Re.pattern) (text : string) : option string :=
  match pats with
  | [] => None
  | pat :: pats' =>
      match Re.findall pat text with
      | phone :: _ => Some (clean_phone phone)
      | [] => extract_phone_from pats' text
      end
  end.

Definition extract_phone (text : string) : option string :=
  extract_phone_from phone_patterns text.

Definition skill_keywords : list string :=
  [ "python"; "javascript"; "java"; "react"; "node"; "fastapi";
    "flask"; "django"; "html"; "css"; "sql"; "mysql"; "mongodb";
    "tensorflow"; "pytorch"; "scikit-learn"; "pandas"; "numpy";
    "langchain"; "llm"; "nlp"; "machine learning"; "deep learning";
    "ai"; "artificial intelligence"; "git"; "github"; "docker";
    "aws"; "azure"; "gcp"; "api"; "rest"; "graphql";
    "typescript"; "angular"; "vue"; "express"; "bootstrap";
    "tailwind"; "redux"; "nextjs"; "nestjs"; "spring boot";
    "c++"; "c#"; "ruby"; "php"; "swift"; "kotlin"; "rust";
    "opencv"; "keras"; "spark"; "hadoop"; "kafka"; "redis";
    "faiss"; "hugging face"; "rag"; "semantic search" ].

(** The loop of [extract_skills], before the conversion to a set. *)
Definition found_skills (text : string) : list string :=
  let text_lower := Py.lower text in
  map Py.title (filter (fun skill => Py.str_in skill text_lower) skill_keywords).

(** [list(set(found_skills))]: the element order of a Python set is
    unspecified; the model keeps the first occurrence of each element. *)
Definition extract_skills (text : string) : list string :=
  nodup string_dec (found_skills text).

End ResumeParser.

(** ** linkedin_scraper.py: [extract_email_from_text] *)

Module LinkedinEmail.

Definition generic_markers : list string := ["noreply"; "no-reply"; "donotreply"].

Definition is_generic (email : string) : bool :=
  existsb (fun x => Py.str_in x (Py.lower email)) generic_markers.

Definition extract_email_from_text (text : string) : list string :=
  match text with
  | EmptyString => []
  | _ => filter (fun email => negb (is_generic email))
                (Re.findall ResumeParser.email_pattern text)
  end.

End LinkedinEmail.

(** ** More of the Python string API *)

Module PySplit.

Definition newline : ascii := ascii_of_nat 10.

Definition cons_head (c : ascii) (pieces : list string) : list string :=
  match pieces with
  | h :: t => String c h :: t
  | [] => [String c ""]
  end.

(** [s.split(sep)] for a one-character [sep]. *)
Fixpoint split_char (sep : ascii) (s : string) : list string :=
  match s with
  | EmptyString => [""]
  | String c s' =>
      if Ascii.eqb c sep then "" :: split_char sep s'
      else cons_head c (split_char sep s')
  end.

(** [s.split(', ')]: the leftmost occurrences of ", " cut the string. *)
Fixpoint split_comma_space (s : string) : list string :=
  match s with
  | EmptyString => [""]
  | String c s' =>
      match s' with
      | String d s'' =>
          if Ascii.eqb c "," && Ascii.eqb d " " then "" :: split_comma_space s''
          else cons_head c (split_comma_space s')
      | EmptyString => [String c ""]
      end
  end.

(** [s.split()]: maximal runs of non-whitespace characters. *)
Fixpoint split_ws_aux (l cur : list ascii) : list string :=
  match l with
  | [] => match cur with [] => [] | _ => [string_of_list_ascii (rev cur)] end
  | c :: l' =>
      if Py.is_space c then
        match cur with
        | [] => split_ws_aux l' []
        | _ => string_of_list_ascii (rev cur) :: split_ws_aux l' []
        end
      else split_ws_aux l' (c :: cur)
  end.

Definition split_ws (s : string) : list string := split_ws_aux (list_ascii_of_string s) [].

End PySplit.

(** ** main.py: the stored rows and the saved-job and resume endpoints *)

Module MainDb.

Local Open Scope nat_scope.

Record user_row : Type := {
  u_id : nat;
  u_email : string
}.

Record saved_job_row : Type := {
  sj_id : nat;
  sj_user : nat;
  sj_title : string;
  sj_company : string;
  sj_location : string;
  sj_link : string;
  sj_hr_email : option string;
  sj_status : option string
}.

(** The two tables, rows in id order. *)
Record db : Type := {
  users : list user_row;
  saved_jobs : list saved_job_row
}.

(** [db.query(User).filter(User.email == user_email).first()] *)
Definition find_user (d : db) (email : string) : option user_row :=
  find (fun u => String.eqb (u_email u) email) (users d).

(** The id SQLite gives a new row of an integer primary key: one more than
    the largest id in the table. *)
Definition new_id (rows : list saved_job_row) : nat :=
  S (fold_right Nat.max 0 (map sj_id rows)).

(** Outcomes of the endpoints: the JSON answers and HTTP errors. *)
Inductive reply : Type :=
| AlreadySaved (job_id : nat)
| Saved (job_id : nat)
| Deleted (job_id : nat)
| HttpFail (status : Z).

(** [save_job].  The [HTTPException(404)] raised inside the [try] is caught
    by [except Exception] and re-raised as a 500. *)
Definition save_job (d : db) (email title company location link : string)
    (hr_email : option string) : db * reply :=
  match find_user d email with
  | None => (d, HttpFail 500)
  | Some u =>
      match find (fun j => (sj_user j =? u_id u) && String.eqb (sj_link j) link)
                 (saved_jobs d) with
      | Some existing => (d, AlreadySaved (sj_id existing))
      | None =>
          let id := new_id (saved_jobs d) in
          let row := {| sj_id := id; sj_user := u_id u; sj_title := title;
                        sj_company := company; sj_location := location;
                        sj_link := link; sj_hr_email := hr_email;
                        sj_status := Some "pending" |} in
          ({| users := users d; saved_jobs := (saved_jobs d ++ [row])%list |}, Saved id)
      end
  end.

(** [delete_saved_job]; both 404s are turned into a 500 by the generic
    handler. *)
Definition delete_saved_job (d : db) (email : string) (job_id : nat) : db * reply :=
  match find_user d email with
  | None => (d, HttpFail 500)
  | Some u =>
      match find (fun j => (sj_id j =? job_id) && (sj_user j =? u_id u)) (saved_jobs d) with
      | None => (d, HttpFail 500)
      | Some j =>
          ({| users := users d;
              saved_jobs := filter (fun r => negb (sj_id r =? sj_id j)) (saved_jobs d) |},
           Deleted job_id)
      end
  end.

Record stats : Type := {
  total_applications : nat;
  ended : nat;
  running : nat;
  pending : nat
}.

(** [j.status in [...]] for a list of strings and possibly [None]. *)
Definition status_in (allowed : list (option string)) (st : option string) : bool :=
  existsb (fun a => match a, st with
                    | Some x, Some y => String.eqb x y
                    | None, None => true
                    | _, _ => false
                    end) allowed.

Definition count_status (allowed : list (option string)) (rows : list saved_job_row) : nat :=
  List.length (filter (fun j => status_in allowed (sj_status j)) rows).

(** [get_dashboard_stats] *)
Definition get_dashboard_stats (d : db) (email : string) : stats :=
  match find_user d email with
  | None => {| total_applications := 0; ended := 0; running := 0; pending := 0 |}
  | Some u =>
      let rows := filter (fun j => sj_user j =? u_id u) (saved_jobs d) in
      {| total_applications := List.length rows;
         ended := count_status [Some "rejected"; Some "accepted"] rows;
         running := count_status [Some "applied"; Some "interviewing"] rows;
         pending := count_status [Some "pending"; None] rows |}
  end.

(** The resume's [skills] column as [upload_resume] writes it. *)
Definition stored_skills (skills : list string) : string := Py.join ", " skills.

(** [resume.skills.split(', ') if resume.skills else []] in [get_resume]
    and [get_user_resumes]. *)
Definition read_skills (column : option string) : list string :=
  match column with
  | Some s => if String.eqb s "" then [] else PySplit.split_comma_space s
  | None => []
  end.

(** One entry of the [jobs] list of [get_saved_jobs] (the [created_at]
    timestamp is left out). *)
Record saved_view : Type := {
  v_id : nat;
  v_title : string;
  v_company : string;
  v_location : string;
  v_url : string;
  v_hr_email : option string;
  v_status : string
}.

(** [job.status or "pending"] *)
Definition shown_status (st : option string) : string :=
  match st with
  | Some s => if String.eqb s "" then "pending" else s
  | None => "pending"
  end.

Definition view_of (j : saved_job_row) : saved_view :=
  {| v_id := sj_id j; v_title := sj_title j; v_company := sj_company j;
     v_location := sj_location j; v_url := sj_link j; v_hr_email := sj_hr_email j;
     v_status := shown_status (sj_status j) |}.

(** [get_saved_jobs]: [None] is the 500 answer for an unknown user. *)
Definition get_saved_jobs (d : db) (email : string) : option (list saved_view) :=
  match find_user d email with
  | None => None
  | Some u => Some (map view_of (filter (fun j => sj_user j =? u_id u) (saved_jobs d)))
  end.

End MainDb.

(** ** The scrape pipelines *)

(** Python slicing [xs[:n]] for an integer [n] (a negative [n] drops
    [-n] elements from the end). *)
Definition py_take {A} (n : Z) (xs : list A) : list A :=
  if (0 <=? n)%Z then firstn (Z.to_nat n) xs
  else firstn (length xs - Z.to_nat (- n)) xs.

(** Exceptions that can escape a call. *)
Inductive exn : Type :=
| LaunchError       (* webdriver.Chrome(...) could not start the browser *)
| NavigationError   (* driver.get(url) raised *)
| KeyError.         (* link_elem['href'] on an anchor without href *)

Inductive outcome (A : Type) : Type :=
| Ok (a : A)
| Raised (e : exn).
Arguments Ok {A} a.
Arguments Raised {A} e.

(** A job dictionary as the sources build it; keys a source does not set
    are [None] (so [job.get(key)] is [None]). *)
Record job : Type := {
  job_id : option nat;
  title : string;
  company : string;
  location : string;
  link : option string;
  hr_email : option string;
  experience_level : option string
}.

(** [job.get('hr_email')] is truthy: present and non-empty. *)
Definition has_email (j : job) : bool :=
  match hr_email j with
  | Some e => negb (String.eqb e "")
  | None => false
  end.

Definition job_eq_dec : forall x y : job, {x = y} + {x <> y}.
Proof.
  decide equality;
    first [apply string_dec | decide equality; first [apply string_dec | apply Nat.eq_dec]].
Defined.

(** A job card of the rendered page, as seen through the DOM queries:
    the text of each child element when it exists, and for the anchor its
    [href] attribute when present. *)
Record card : Type := {
  title_elem : option string;
  company_elem : option string;
  location_elem : option string;
  link_elem : option (option string)
}.

(** The browser as seen by one scrape call: whether the engine starts, and
    for each URL either the job cards of the rendered page (after the
    scrolls) or [None] when [driver.get] raises. *)
Record browser : Type := {
  engine_starts : bool;
  fetch : string -> option (list card)
}.

(** *** main.py: [scrape_linkedin_jobs] and [search_jobs] *)

Module MainScraper.

Inductive level : Type := Internship | EntryLevel | Associate | MidSeniorLevel.

Definition level_label (l : level) : string :=
  match l with
  | Internship => "Internship"
  | EntryLevel => "Entry level"
  | Associate => "Associate"
  | MidSeniorLevel => "Mid-Senior level"
  end.

(** "Determine experience level" ([experience_years : int]). *)
Definition experience_level_of (experience_years : Z) : level :=
  if (experience_years =? 0)%Z then Internship
  else if (experience_years <=? 2)%Z then EntryLevel
  else if (experience_years <=? 5)%Z then Associate
  else MidSeniorLevel.

(** "Build search query" *)
Definition encoded_query (skills : list string) (experience_years : Z) : string :=
  let skills_query := Py.join " " (firstn 3 skills) in
  let search_query := skills_query ++ " " ++ level_label (experience_level_of experience_years) in
  Py.replace_char " " "%20" search_query.

Definition encoded_location (location : string) : string :=
  Py.replace_char " " "%20" location.

Definition search_url (skills : list string) (location : string) (experience_years : Z) : string :=
  "https://www.linkedin.com/jobs/search/?keywords=" ++ encoded_query skills experience_years
  ++ "&location=" ++ encoded_location location.

(** The body of the per-card [try]: [Ok None] when the [if] fails,
    [Raised] when [link_elem['href']] raises. *)
Definition parse_card (location : string) (lvl : string) (c : card) : outcome (option job) :=
  match title_elem c, company_elem c, link_elem c with
  | Some t, Some co, Some a =>
      match a with
      | Some href =>
          Ok (Some {| job_id := None;
                      title := Py.strip t;
                      company := Py.strip co;
                      location := match location_elem c with
                                  | Some l => Py.strip l
                                  | None => location
                                  end;
                      link := Some href;
                      hr_email := None;
                      experience_level := Some lvl |})
      | None => Raised KeyError
      end
  | _, _, _ => Ok None
  end.

(** [for card in ...: try ... except: continue], appending to [jobs]. *)
Fixpoint parse_cards (location lvl : string) (cards : list card) : list job :=
  match cards with
  | [] => []
  | c :: cs =>
      match parse_card location lvl c with
      | Ok (Some j) => j :: parse_cards location lvl cs
      | Ok None | Raised _ => parse_cards location lvl cs
      end
  end.

(** The loop over [job_cards[:max_jobs * 2]] followed by [jobs[:max_jobs]]. *)
Definition extract_jobs (location lvl : string) (max_jobs : Z) (cards : list card) : list job :=
  py_take max_jobs (parse_cards location lvl (py_take (max_jobs * 2) cards)).

(** The whole call.  The driver is created before the [try]; everything
    after it is inside a [try] whose handler falls through to
    [return jobs[:max_jobs]] with [jobs = []]. *)
Definition scrape_linkedin_jobs (b : browser) (skills : list string) (location : string)
    (experience_years : Z) (max_jobs : Z) : outcome (list job) :=
  if negb (engine_starts b) then Raised LaunchError
  else
    let lvl := level_label (experience_level_of experience_years) in
    match fetch b (search_url skills location experience_years) with
    | Some cards => Ok (extract_jobs location lvl max_jobs cards)
    | None => Ok (py_take max_jobs [])
    end.

(** Response of the [/search-jobs] endpoint (after authentication). *)
Inductive response : Type :=
| Success (total_jobs : nat) (jobs_with_email jobs_without_email : list job)
| HttpError (status : Z).

(** [search_jobs]: the user lookup and the scrape run inside one [try];
    the 404 raised for an unknown user and any exception of the scrape are
    both caught by [except Exception] and re-raised as a 500. *)
Definition search_jobs (d : MainDb.db) (user_email : string) (b : browser)
    (skills : list string) (location : string)
    (experience_years max_jobs : Z) : response :=
  match MainDb.find_user d user_email with
  | None => HttpError 500
  | Some _ =>
      match scrape_linkedin_jobs b skills location experience_years max_jobs with
      | Ok jobs => Success (length jobs) (filter has_email jobs)
                           (filter (fun j => negb (has_email j)) jobs)
      | Raised _ => HttpError 500
      end
  end.

End MainScraper.

(** *** linkedin_scraper.py: [scrape_linkedin_jobs] and [categorize_jobs] *)

Module LinkedinScraper.

(** "Add experience level filter to URL" *)
Definition experience_filter (experience_years : option Z) : string :=
  match experience_years with
  | None => ""
  | Some y =>
      if (y =? 0)%Z then "&f_E=1"
      else if (y <=? 2)%Z then "&f_E=1,2"
      else if (y <=? 5)%Z then "&f_E=3,4"
      else "&f_E=5,6"
  end.

Definition search_url (skills : list string) (location : string) (experience_years : option Z) : string :=
  "https://www.linkedin.com/jobs/search/?keywords=" ++ Py.join "+" (firstn 3 skills)
  ++ "&location=" ++ location ++ experience_filter experience_years.

(** The per-card [try] body: [find_element] raises when an element is
    missing ([None] here); [get_attribute("href")] gives [None] without
    raising. *)
Definition parse_card (idx : nat) (c : card) : option job :=
  match title_elem c, company_elem c, location_elem c, link_elem c with
  | Some t, Some co, Some l, Some href =>
      Some {| job_id := Some idx;
              title := Py.strip t;
              company := Py.strip co;
              location := Py.strip l;
              link := href;
              hr_email := None;
              experience_level := None |}
  | _, _, _, _ => None
  end.

(** [for idx, card in enumerate(job_cards[:max_jobs], 1)] *)
Fixpoint parse_cards (idx : nat) (cards : list card) : list job :=
  match cards with
  | [] => []
  | c :: cs =>
      match parse_card idx c with
      | Some j => j :: parse_cards (S idx) cs
      | None => parse_cards (S idx) cs
      end
  end.

(** The whole call: [setup_driver()] is inside the [try], whose handler
    returns [[]]. *)
Definition scrape_linkedin_jobs (b : browser) (skills : list string) (location : string)
    (max_jobs : Z) (experience_years : option Z) : outcome (list job) :=
  if negb (engine_starts b) then Ok []
  else
    match fetch b (search_url skills location experience_years) with
    | Some cards => Ok (parse_cards 1 (py_take max_jobs cards))
    | None => Ok []
    end.

Record categorized : Type := {
  direct_contact_jobs : list job;
  standard_jobs : list job;
  total_jobs : nat;
  jobs_with_email : nat;
  jobs_without_email : nat
}.

(** One iteration of the loop: [jobs_with_email.append(job)] or
    [jobs_with_link_only.append(job)]. *)
Definition categorize_step (acc : list job * list job) (j : job) : list job * list job :=
  let '(jobs_with_email, jobs_with_link_only) := acc in
  if has_email j then ((jobs_with_email ++ [j])%list, jobs_with_link_only)
  else (jobs_with_email, (jobs_with_link_only ++ [j])%list).

(** [categorize_jobs] *)
Definition categorize_jobs (jobs : list job) : categorized :=
  let '(with_email, link_only) := fold_left categorize_step jobs ([], []) in
  {| direct_contact_jobs := with_email;
     standard_jobs := link_only;
     total_jobs := length jobs;
     jobs_with_email := length with_email;
     jobs_without_email := length link_only |}.

End LinkedinScraper.

(** ** PDF text extraction ([upload_resume] in main.py with PyMuPDF,
    [extract_text_from_pdf] in resume_parser.py) *)

Section PdfText.

(** A page of an opened document and the text the library extracts from
    it (the empty string for a page without text). *)
Variable page : Type.
Variable get_text : page -> string.

(** [text = ""; for page in doc: text += page.get_text()] *)
Definition extract_text (pages : list page) : string :=
  fold_left (fun text p => text ++ get_text p) pages "".

End PdfText.

(** ** resume_parser.py: [extract_name] and [parse_resume] *)

Module ResumeName.

Local Open Scope nat_scope.

(** The test of the loop of [extract_name] on a stripped line. *)
Definition qualifies (line : string) : bool :=
  negb (String.eqb line "") && (List.length (PySplit.split_ws line) <=? 4)
  && negb (Py.str_in "@" line).

(** [for line in lines: line = line.strip(); if ...: return line] *)
Fixpoint first_name_line (lines : list string) : option string :=
  match lines with
  | [] => None
  | line :: rest =>
      let line := Py.strip line in
      if qualifies line then Some line else first_name_line rest
  end.

(** [extract_name]: only [lines[:5]] are scanned. *)
Definition extract_name (text : string) : option string :=
  first_name_line (firstn 5 (PySplit.split_char PySplit.newline text)).

Record profile : Type := {
  p_name : option string;
  p_email : option string;
  p_phone : option string;
  p_skills : list string;
  p_raw_text : string
}.

(** [parse_resume] on an opened document, the page-text function of the
    PDF library being a parameter. *)
Definition parse_resume (page : Type) (get_text : page -> string) (pages : list page) : profile :=
  let text := extract_text page get_text pages in
  {| p_name := extract_name text;
     p_email := ResumeParser.extract_email text;
     p_phone := ResumeParser.extract_phone text;
     p_skills := ResumeParser.extract_skills text;
     p_raw_text := text |}.

End ResumeName.

(** ** linkedin_scraper.py: [get_experience_level] (the second definition,
    which replaces the first one when the module is loaded) *)

Module LinkedinLevel.

Definition get_experience_level (years : option Z) : string :=
  match years with
  | None => "All Levels"
  | Some y =>
      if (y =? 0)%Z then "Fresher/Internship (0 years)"
      else if (y <=? 2)%Z then "Entry Level (0-2 years)"
      else if (y <=? 5)%Z then "Mid Level (2-5 years)"
      else "Senior Level (5+ years)"
  end.

End LinkedinLevel.


(** ** The strings a pattern matches

    [matched pat m]: the characters [m] are a word of the language of
    [pat] (a [\b] consumes nothing, so it only constrains the context). *)
Fixpoint matched (pat : Re.pattern) (m : list ascii) : Prop :=
  match pat with
  | [] => m = []
  | Re.Lit c :: r => exists m', m = c :: m' /\ matched r m'
  | Re.Cls p lo hi :: r =>
      exists m1 m2, m = (m1 ++ m2)%list /\ lo <= length m1 /\
        match hi with Some h => length m1 <= h | None => True end /\
        forallb p m1 = true /\ matched r m2
  | Re.WordB :: r => matched r m
  end.

(** [occur_in_order ms l]: the words [ms] occur in [l] one after the
    other, each one starting after the end of the previous one (document
    order, no overlap). *)
Fixpoint occur_in_order (ms : list (list ascii)) (l : list ascii) : Prop :=
  match ms with
  | [] => True
  | m :: ms' => exists pre rest, l = (pre ++ m ++ rest)%list /\ occur_in_order ms' rest
  end.

(** The saved-job table as the endpoints keep it: ids are distinct (a
    primary key) and a user has saved a link at most once. *)
Definition rows_wf (rows : list MainDb.saved_job_row) : Prop :=
  NoDup (map MainDb.sj_id rows) /\
  NoDup (map (fun j => (MainDb.sj_user j, MainDb.sj_link j)) rows).

(** ** URL safety

    Reading of "URL-safe" used to state the query-construction claim:
    every character is an RFC 3986 unreserved character (letters, digits,
    [-], [.], [_], [~]) or the [%] of a percent-escape. *)
Definition url_safe (s : string) : bool :=
  forallb (fun c => Py.is_alpha c || Py.is_digit c || Pat.in_chars "-._~%" c)
          (list_ascii_of_string s).

(** Reading of "spaces encoded as %20" used to state the
    query-construction claim: each space becomes the three characters
    [%20] and every other character is kept as it is. *)
Definition space_to_pct20 (s : string) : string :=
  string_of_list_ascii
    (flat_map (fun c => if Ascii.eqb c " "%char then ["%"; "2"; "0"]%char else [c])
              (list_ascii_of_string s)).

(** Order-preserving sub-sequence. *)
Inductive subseq {A : Type} : list A -> list A -> Prop :=
| subseq_nil : subseq [] []
| subseq_keep x l1 l2 : subseq l1 l2 -> subseq (x :: l1) (x :: l2)
| subseq_drop x l1 l2 : subseq l1 l2 -> subseq l1 (x :: l2).

(** ** Sample pages *)

Module Sample.

Definition tag (n : nat) : string := String (ascii_of_nat (64 + n)) "".

(** The [n]-th card of a page, with every element present. *)
Definition full_card (n : nat) : card :=
  {| title_elem := Some (" Engineer " ++ tag n);
     company_elem := Some "Acme";
     location_elem := Some "Pune";
     link_elem := Some (Some ("https://www.linkedin.com/jobs/view/" ++ tag n)) |}.

Definition untitled (c : card) : card :=
  {| title_elem := None; company_elem := company_elem c;
     location_elem := location_elem c; link_elem := link_elem c |}.

(** Ten cards, the fourth without a title. *)
Definition page10 : list card :=
  map (fun n => if Nat.eqb n 4 then untitled (full_card n) else full_card n) (seq 1 10).

(** Twenty valid cards. *)
Definition page20 : list card := map full_card (seq 1 20).

(** Two malformed cards followed by a valid one. *)
Definition crowded_page : list card :=
  [untitled (full_card 1); untitled (full_card 2); full_card 3].

(** A browser whose engine does not start. *)
Definition dead_browser : browser :=
  {| engine_starts := false; fetch := fun _ => Some page20 |}.

(** A browser that starts but whose search page never loads. *)
Definition offline_browser : browser :=
  {| engine_starts := true; fetch := fun _ => None |}.

(** A database with one user and two saved jobs, and a second user. *)
Definition user_db : MainDb.db :=
  {| MainDb.users := [{| MainDb.u_id := 1; MainDb.u_email := "a@b.in" |};
                      {| MainDb.u_id := 2; MainDb.u_email := "c@d.in" |}];
     MainDb.saved_jobs :=
       [{| MainDb.sj_id := 1; MainDb.sj_user := 1; MainDb.sj_title := "Dev";
           MainDb.sj_company := "Acme"; MainDb.sj_location := "Pune";
           MainDb.sj_link := "l1"; MainDb.sj_hr_email := None;
           MainDb.sj_status := Some "applied" |};
        {| MainDb.sj_id := 2; MainDb.sj_user := 1; MainDb.sj_title := "Dev";
           MainDb.sj_company := "Acme"; MainDb.sj_location := "Pune";
           MainDb.sj_link := "l2"; MainDb.sj_hr_email := None;
           MainDb.sj_status := None |}] |}.

End Sample.

(** ** Auxiliary lemmas *)

Lemma str_app_assoc (a b c : string) : (a ++ b) ++ c = a ++ (b ++ c).
Proof. induction a as [|x a IH]; simpl; [reflexivity | now rewrite IH]. Qed.

Lemma str_app_nil_r (a : string) : a ++ "" = a.
Proof. induction a as [|x a IH]; simpl; [reflexivity | now rewrite IH]. Qed.

Lemma concat_empty_cons (x : string) (xs : list string) :
  String.concat "" (x :: xs) = x ++ String.concat "" xs.
Proof. destruct xs; simpl; [now rewrite str_app_nil_r | reflexivity]. Qed.

Lemma extract_text_acc (page : Type) (get_text : page -> string) (pages : list page) (acc : string) :
  fold_left (fun text p => text ++ get_text p) pages acc
  = acc ++ String.concat "" (map get_text pages).
Proof.
  revert acc; induction pages as [|p ps IH]; intro acc; cbn [fold_left map].
  - simpl. now rewrite str_app_nil_r.
  - rewrite IH, concat_empty_cons. now rewrite str_app_assoc.
Qed.

Lemma extract_text_concat (page : Type) (get_text : page -> string) (pages : list page) :
  extract_text page get_text pages = String.concat "" (map get_text pages).
Proof. unfold extract_text. now rewrite extract_text_acc. Qed.

Lemma concat_empty_app (xs ys : list string) :
  String.concat "" (xs ++ ys) = String.concat "" xs ++ String.concat "" ys.
Proof.
  induction xs as [|x xs IH]; simpl app.
  - reflexivity.
  - rewrite !concat_empty_cons, IH. now rewrite str_app_assoc.
Qed.

Lemma string_of_list_ascii_app (a b : list ascii) :
  string_of_list_ascii (a ++ b) = string_of_list_ascii a ++ string_of_list_ascii b.
Proof. induction a as [|c a IH]; simpl; [reflexivity | now rewrite IH]. Qed.

Lemma mtch_suffix (pat : Re.pattern) :
  forall before after rest, Re.mtch pat before after = Some rest ->
  exists m, after = (m ++ rest)%list.
Proof.
  induction pat as [|a pat IH]; intros before after rest H; simpl in H.
  - injection H as <-. now exists [].
  - destruct a as [c|p lo hi|].
    + destruct after as [|d after']; [discriminate|].
      destruct (Ascii.eqb c d); [|discriminate].
      destruct (IH _ _ _ H) as [m ->]. now exists (d :: m).
    + revert H. generalize (Re.run p hi after) as n.
      induction n as [|n IHn]; intro H.
      * destruct (Nat.leb lo 0); [|discriminate].
        destruct (Re.mtch pat _ (skipn 0 after)) eqn:E; [|discriminate].
        injection H as ->. destruct (IH _ _ _ E) as [m Hm].
        exists (firstn 0 after ++ m)%list. rewrite <- app_assoc, <- Hm.
        symmetry. apply firstn_skipn.
      * destruct (Nat.leb lo (S n)).
        -- destruct (Re.mtch pat _ (skipn (S n) after)) eqn:E.
           ++ injection H as ->. destruct (IH _ _ _ E) as [m Hm].
              exists (firstn (S n) after ++ m)%list. rewrite <- app_assoc, <- Hm.
              symmetry. apply firstn_skipn.
           ++ exact (IHn H).
        -- exact (IHn H).
    + destruct (Re.boundary before after); [|discriminate].
      exact (IH _ _ _ H).
Qed.

(** ** Claims *)

(** C1: the experience level of the scrape pipeline's query construction
    is Internship for 0 years, Entry level for 1 or 2, Associate for 3 to
    5 and the senior bucket ("Mid-Senior level") above 5 (main.py); an
    absent value adds no experience filter to the URL
    (linkedin_scraper.py). *)
Theorem experience_level_table :
  (forall y : Z, y = 0%Z -> MainScraper.experience_level_of y = MainScraper.Internship) /\
  (forall y : Z, (1 <= y <= 2)%Z -> MainScraper.experience_level_of y = MainScraper.EntryLevel) /\
  (forall y : Z, (3 <= y <= 5)%Z -> MainScraper.experience_level_of y = MainScraper.Associate) /\
  (forall y : Z, (5 < y)%Z -> MainScraper.experience_level_of y = MainScraper.MidSeniorLevel) /\
  LinkedinScraper.experience_filter None = "" /\
  (forall skills location,
     LinkedinScraper.search_url skills location None
     = "https://www.linkedin.com/jobs/search/?keywords=" ++ Py.join "+" (firstn 3 skills)
       ++ "&location=" ++ location).
Proof.
  unfold MainScraper.experience_level_of.
  repeat split; intros.
  - subst. reflexivity.
  - destruct (Z.eqb_spec y 0); [lia|]. destruct (Z.leb_spec y 2); [reflexivity | lia].
  - destruct (Z.eqb_spec y 0); [lia|]. destruct (Z.leb_spec y 2); [lia|].
    destruct (Z.leb_spec y 5); [reflexivity | lia].
  - destruct (Z.eqb_spec y 0); [lia|]. destruct (Z.leb_spec y 2); [lia|].
    destruct (Z.leb_spec y 5); [lia | reflexivity].
  - unfold LinkedinScraper.search_url, LinkedinScraper.experience_filter.
    now rewrite str_app_nil_r.
Qed.

Lemma experience_level_table_witness :
  MainScraper.experience_level_of 0 = MainScraper.Internship /\
  MainScraper.experience_level_of 2 = MainScraper.EntryLevel /\
  MainScraper.experience_level_of 4 = MainScraper.Associate /\
  MainScraper.experience_level_of 7 = MainScraper.MidSeniorLevel.
Proof.
  destruct experience_level_table as (H0 & H1 & H2 & H3 & _).
  split; [apply H0; reflexivity|].
  split; [apply H1; lia|].
  split; [apply H2; lia|].
  apply H3; lia.
Defined.

Lemma scan_first_hd (pat : Re.pattern) (before after rest : list ascii) :
  Re.mtch pat before after = Some rest ->
  (firstn (length after - length rest) after ++ rest)%list = after.
Proof.
  intro E. destruct (mtch_suffix _ _ _ _ E) as [m0 Hm0]. subst after.
  rewrite length_app, Nat.add_sub, firstn_app, firstn_all, Nat.sub_diag,
          firstn_O, app_nil_r. reflexivity.
Qed.

(** The first word [scan] returns is the match at the leftmost position
    where the pattern matches. *)
Lemma scan_first (pat : Re.pattern) :
  forall fuel before after e ms, length after < fuel ->
  Re.scan fuel pat before after = e :: ms ->
  exists pre suf, after = (pre ++ e ++ suf)%list /\
    Re.mtch pat (rev_append pre before) (e ++ suf)%list = Some suf /\
    forall k, k < length pre ->
      Re.mtch pat (rev_append (firstn k after) before) (skipn k after) = None.
Proof.
  induction fuel as [|f IH]; intros before after e ms Hlt H; [lia|].
  simpl in H. destruct (Re.mtch pat before after) as [rest|] eqn:E.
  - pose proof (scan_first_hd _ _ _ _ E) as Hs.
    assert (He : e = firstn (length after - length rest) after).
    { destruct (firstn (length after - length rest) after); now injection H. }
    subst e. exists [], rest. split; [now rewrite Hs|].
    split; [simpl; now rewrite Hs|]. intros k Hk; simpl in Hk; lia.
  - destruct after as [|c a']; [discriminate|].
    simpl in Hlt. destruct (IH (c :: before) a' e ms ltac:(lia) H)
      as [pre [suf [Ha [Hm Hn]]]].
    exists (c :: pre), suf. split; [simpl; now rewrite Ha|].
    split; [exact Hm|].
    intros [|k] Hk; [exact E|]. simpl in Hk |- *. apply Hn. lia.
Qed.

(** When [scan] returns nothing, the pattern matches at no position. *)
Lemma scan_none (pat : Re.pattern) :
  forall fuel before after, length after < fuel ->
  Re.scan fuel pat before after = [] ->
  forall k, k <= length after ->
    Re.mtch pat (rev_append (firstn k after) before) (skipn k after) = None.
Proof.
  induction fuel as [|f IH]; intros before after Hlt H k Hk; [lia|].
  simpl in H. destruct (Re.mtch pat before after) as [rest|] eqn:E.
  - destruct (firstn (length after - length rest) after); discriminate.
  - destruct k as [|k]; [exact E|].
    destruct after as [|c a']; [simpl in Hk; lia|].
    simpl in Hlt, Hk |- *. apply IH; [lia | exact H | lia].
Qed.

Lemma occur_in_order_app_l (ms : list (list ascii)) (x r : list ascii) :
  occur_in_order ms r -> occur_in_order ms (x ++ r).
Proof.
  destruct ms as [|m ms]; simpl; [trivial|].
  intros [pre [rest [-> H]]]. exists (x ++ pre)%list, rest.
  split; [now rewrite app_assoc | exact H].
Qed.

(** The words [scan] returns occur in the text in document order. *)
Lemma scan_in_order (pat : Re.pattern) :
  forall fuel before after, occur_in_order (Re.scan fuel pat before after) after.
Proof.
  induction fuel as [|f IH]; intros before after; simpl; [trivial|].
  assert (Hskip : occur_in_order (match after with
                                  | [] => []
                                  | c :: a' => Re.scan f pat (c :: before) a'
                                  end) after).
  { destruct after as [|c a']; simpl; [trivial|].
    apply (occur_in_order_app_l _ [c]), IH. }
  destruct (Re.mtch pat before after) as [rest|] eqn:E; [|exact Hskip].
  pose proof (scan_first_hd _ _ _ _ E) as Hs.
  destruct (firstn (length after - length rest) after) as [|x m] eqn:Hm.
  - exists [], after. split; [reflexivity | exact Hskip].
  - exists [], rest. split; [exact (eq_sym Hs) | apply IH].
Qed.

Lemma occur_in_order_filter (q : string -> bool) :
  forall ms l, occur_in_order ms l ->
  occur_in_order (map list_ascii_of_string (filter q (map string_of_list_ascii ms))) l.
Proof.
  induction ms as [|m ms IH]; intros l H; simpl; [trivial|].
  destruct H as [pre [rest [-> H]]].
  destruct (q (string_of_list_ascii m)); simpl.
  - rewrite list_ascii_of_string_of_list_ascii. exists pre, rest. split; [reflexivity|].
    now apply IH.
  - rewrite app_assoc. apply occur_in_order_app_l. now apply IH.
Qed.

Lemma rev_append_nil (l : list ascii) : rev_append l [] = rev l.
Proof. now rewrite rev_append_rev, app_nil_r. Qed.

(** C2 (as stated, refuted): on the spec's example the resume parser's
    [extract_email] does not skip the no-reply address. *)
Lemma extract_email_keeps_noreply :
  ResumeParser.extract_email "contact: noreply@corp.com, jane@corp.com" <> Some "jane@corp.com".
Proof. intro H. vm_compute in H. discriminate H. Qed.

Lemma findall_email_empty : Re.findall ResumeParser.email_pattern "" = [].
Proof. vm_compute. reflexivity. Qed.

(** C2 (amended): the resume parser's [extract_email] returns the match of
    the email pattern at the leftmost position where the pattern matches
    (no earlier position matches), or nothing when no position matches,
    with no denylist; the no-reply filter belongs to the job-page helper
    [extract_email_from_text], which returns the matches that do not
    contain noreply, no-reply or donotreply case-insensitively, in the
    order they occur in the text. *)
Theorem extract_email_first_match :
  (forall text e, ResumeParser.extract_email text = Some e ->
     exists pre suf,
       list_ascii_of_string text = (pre ++ list_ascii_of_string e ++ suf)%list /\
       Re.mtch ResumeParser.email_pattern (rev pre) (list_ascii_of_string e ++ suf)%list = Some suf /\
       forall k, k < length pre ->
         Re.mtch ResumeParser.email_pattern (rev (firstn k (list_ascii_of_string text)))
                 (skipn k (list_ascii_of_string text)) = None) /\
  (forall text, ResumeParser.extract_email text = None ->
     forall k, k <= length (list_ascii_of_string text) ->
       Re.mtch ResumeParser.email_pattern (rev (firstn k (list_ascii_of_string text)))
               (skipn k (list_ascii_of_string text)) = None) /\
  (forall text, ResumeParser.extract_email text
                = hd_error (Re.findall ResumeParser.email_pattern text)) /\
  (forall text, LinkedinEmail.extract_email_from_text text
                = filter (fun e => negb (LinkedinEmail.is_generic e))
                         (Re.findall ResumeParser.email_pattern text)) /\
  (forall text, occur_in_order (map list_ascii_of_string (LinkedinEmail.extract_email_from_text text))
                               (list_ascii_of_string text)) /\
  (forall text e, In e (LinkedinEmail.extract_email_from_text text)
                  <-> In e (Re.findall ResumeParser.email_pattern text)
                      /\ LinkedinEmail.is_generic e = false) /\
  ResumeParser.extract_email "contact: noreply@corp.com, jane@corp.com"
    = Some "noreply@corp.com" /\
  LinkedinEmail.extract_email_from_text "contact: noreply@corp.com, jane@corp.com"
    = ["jane@corp.com"].
Proof.
  assert (Hfilter : forall text, LinkedinEmail.extract_email_from_text text
                = filter (fun e => negb (LinkedinEmail.is_generic e))
                         (Re.findall ResumeParser.email_pattern text)).
  { intros [|c t]; [now rewrite findall_email_empty | reflexivity]. }
  split; [|split; [|split; [|split; [|split; [|split; [|split]]]]]].
  - intros text e H. unfold ResumeParser.extract_email, Re.findall in H.
    destruct (Re.scan _ _ _ _) as [|le ms] eqn:Hs; [discriminate|].
    injection H as <-. rewrite list_ascii_of_string_of_list_ascii.
    destruct (scan_first _ _ _ _ _ _ (Nat.lt_succ_diag_r _) Hs)
      as [pre [suf [Ha [Hm Hn]]]].
    exists pre, suf. rewrite <- rev_append_nil. split; [exact Ha|]. split; [exact Hm|].
    intros k Hk. rewrite <- rev_append_nil. now apply Hn.
  - intros text H k Hk. unfold ResumeParser.extract_email, Re.findall in H.
    destruct (Re.scan _ _ _ _) as [|le ms] eqn:Hs; [|discriminate].
    rewrite <- rev_append_nil. exact (scan_none _ _ _ _ (Nat.lt_succ_diag_r _) Hs k Hk).
  - intro text. unfold ResumeParser.extract_email.
    destruct (Re.findall ResumeParser.email_pattern text); reflexivity.
  - exact Hfilter.
  - intro text. rewrite Hfilter. unfold Re.findall.
    apply occur_in_order_filter, scan_in_order.
  - intros text e. rewrite Hfilter, filter_In. now rewrite negb_true_iff.
  - vm_compute. reflexivity.
  - vm_compute. reflexivity.
Qed.

(** C3: the extracted text is the concatenation of the page texts in
    document order with no separator, and a page without text adds the
    empty string (removing it leaves the result unchanged). *)
Theorem pdf_text_concat :
  forall (page : Type) (get_text : page -> string),
  (forall pages, extract_text page get_text pages = String.concat "" (map get_text pages)) /\
  (forall pre p post, get_text p = "" ->
     extract_text page get_text (pre ++ p :: post) = extract_text page get_text (pre ++ post)).
Proof.
  intros page get_text. split.
  - apply extract_text_concat.
  - intros pre p post Hp.
    rewrite !extract_text_concat, !map_app, !concat_empty_app. cbn [map].
    rewrite concat_empty_cons, Hp. reflexivity.
Qed.

Lemma pdf_text_concat_witness :
  extract_text string (fun s => s) ["Jane Doe"; ""; "Python"]
  = extract_text string (fun s => s) ["Jane Doe"; "Python"] /\
  extract_text string (fun s => s) ["Jane Doe"; "Python"] = "Jane DoePython".
Proof.
  split.
  - apply (proj2 (pdf_text_concat string (fun s => s)) ["Jane Doe"] "" ["Python"]).
    reflexivity.
  - reflexivity.
Defined.

Lemma py_take_nonneg {A} (n : Z) (xs : list A) :
  (0 <= n)%Z -> py_take n xs = firstn (Z.to_nat n) xs.
Proof. intro H. unfold py_take. destruct (Z.leb_spec 0 n); [reflexivity | lia]. Qed.

Lemma parse_cards_app location lvl (l1 l2 : list card) :
  MainScraper.parse_cards location lvl (l1 ++ l2)%list
  = (MainScraper.parse_cards location lvl l1 ++ MainScraper.parse_cards location lvl l2)%list.
Proof.
  induction l1 as [|c l1 IH]; simpl; [reflexivity|].
  destruct (MainScraper.parse_card location lvl c) as [[j|]|e]; now rewrite ?IH.
Qed.

Lemma parse_cards_length location lvl (cards : list card) :
  length (MainScraper.parse_cards location lvl cards) <= length cards.
Proof.
  induction cards as [|c cs IH]; simpl; [lia|].
  destruct (MainScraper.parse_card location lvl c) as [[j|]|e]; simpl; lia.
Qed.

Lemma extract_jobs_nonneg location lvl (max_jobs : Z) cards :
  (0 <= max_jobs)%Z ->
  MainScraper.extract_jobs location lvl max_jobs cards
  = firstn (Z.to_nat max_jobs)
      (MainScraper.parse_cards location lvl (firstn (2 * Z.to_nat max_jobs) cards)).
Proof.
  intro H. unfold MainScraper.extract_jobs.
  rewrite !py_take_nonneg by lia.
  replace (Z.to_nat (max_jobs * 2)) with (2 * Z.to_nat max_jobs) by lia.
  reflexivity.
Qed.

(** C4: a card lacking its title, company or link (or whose link has no
    href) is skipped and the loop goes on; valid cards are kept in page
    order; a card lacking only its location gets the requested location.
    With a cap covering the page, the result is exactly the parsed valid
    cards; e.g. ten cards whose fourth has no title give nine listings. *)
Theorem card_extraction_skips_malformed :
  forall loc lvl,
  (forall max_jobs cards, (Z.of_nat (length cards) <= max_jobs)%Z ->
     MainScraper.extract_jobs loc lvl max_jobs cards
     = MainScraper.parse_cards loc lvl cards) /\
  (forall pre c post,
     title_elem c = None \/ company_elem c = None \/ link_elem c = None
     \/ link_elem c = Some None ->
     MainScraper.parse_cards loc lvl (pre ++ c :: post)%list
     = (MainScraper.parse_cards loc lvl pre ++ MainScraper.parse_cards loc lvl post)%list) /\
  (forall pre c post j,
     MainScraper.parse_card loc lvl c = Ok (Some j) ->
     MainScraper.parse_cards loc lvl (pre ++ c :: post)%list
     = (MainScraper.parse_cards loc lvl pre ++ j :: MainScraper.parse_cards loc lvl post)%list) /\
  (forall c t co h,
     title_elem c = Some t -> company_elem c = Some co -> link_elem c = Some (Some h) ->
     location_elem c = None ->
     exists j, MainScraper.parse_card loc lvl c = Ok (Some j) /\ location j = loc) /\
  (let out := MainScraper.extract_jobs loc lvl 10 Sample.page10 in
   length out = 9 /\
   map title out = map (fun n => "Engineer " ++ Sample.tag n)
                       (filter (fun n => negb (Nat.eqb n 4)) (seq 1 10))).
Proof.
  intros loc lvl. split; [|split; [|split; [|split]]].
  - intros max_jobs cards H.
    rewrite extract_jobs_nonneg by lia.
    pose proof (parse_cards_length loc lvl cards).
    assert (length cards <= Z.to_nat max_jobs) by lia.
    rewrite (firstn_all2 cards) by lia.
    rewrite firstn_all2 by lia. reflexivity.
  - intros pre c post Hc.
    assert (Hskip : MainScraper.parse_card loc lvl c = Ok None
                    \/ MainScraper.parse_card loc lvl c = Raised KeyError).
    { unfold MainScraper.parse_card.
      destruct Hc as [E|[E|[E|E]]]; rewrite E;
        destruct (title_elem c), (company_elem c); auto. }
    rewrite parse_cards_app. cbn [MainScraper.parse_cards].
    destruct Hskip as [E|E]; rewrite E; reflexivity.
  - intros pre c post j Hc. rewrite parse_cards_app. cbn [MainScraper.parse_cards].
    now rewrite Hc.
  - intros c t co h Ht Hco Hl Hloc. unfold MainScraper.parse_card.
    rewrite Ht, Hco, Hl, Hloc. eexists. split; reflexivity.
  - split; vm_compute; reflexivity.
Qed.

Lemma card_extraction_skips_malformed_witness :
  MainScraper.extract_jobs "India" "Entry level" 10 Sample.page10
  = MainScraper.parse_cards "India" "Entry level" Sample.page10.
Proof.
  apply (proj1 (card_extraction_skips_malformed "India" "Entry level")).
  vm_compute. discriminate.
Defined.

(** C5 (as stated, refuted): with [max_jobs = 1], two malformed cards
    followed by a valid one give no listing: only the first [2 * max_jobs]
    cards are examined, so extraction does not go on until [max_jobs]
    valid listings are collected. *)
Lemma card_cap_window_counterexample :
  MainScraper.extract_jobs "India" "Entry level" 1 Sample.crowded_page = [] /\
  MainScraper.extract_jobs "India" "Entry level" 1 Sample.crowded_page
  <> firstn 1 (MainScraper.parse_cards "India" "Entry level" Sample.crowded_page).
Proof.
  split.
  - vm_compute. reflexivity.
  - vm_compute. discriminate.
Qed.

(** C5 (amended): for a cap [max_jobs >= 0] the extractor parses the
    first [2 * max_jobs] cards and returns the first [max_jobs] valid
    listings among them: never more than [max_jobs], always a prefix of the
    page's valid listings in document order, and exactly its first
    [max_jobs] ones when at least that many of the examined cards are
    valid; twenty valid cards with [max_jobs = 5] give the first five. *)
Theorem card_cap_prefix :
  forall loc lvl,
  (forall max_jobs cards, (0 <= max_jobs)%Z ->
     let n := Z.to_nat max_jobs in
     let out := MainScraper.extract_jobs loc lvl max_jobs cards in
     out = firstn n (MainScraper.parse_cards loc lvl (firstn (2 * n) cards)) /\
     length out <= n /\
     (exists rest, MainScraper.parse_cards loc lvl cards = (out ++ rest)%list) /\
     (n <= length (MainScraper.parse_cards loc lvl (firstn (2 * n) cards)) ->
      out = firstn n (MainScraper.parse_cards loc lvl cards))) /\
  (let out := MainScraper.extract_jobs loc lvl 5 Sample.page20 in
   length out = 5 /\ out = firstn 5 (MainScraper.parse_cards loc lvl Sample.page20)).
Proof.
  intros loc lvl. split.
  - intros max_jobs cards Hm n out.
    assert (Hout : out = firstn n (MainScraper.parse_cards loc lvl (firstn (2 * n) cards)))
      by (apply extract_jobs_nonneg; exact Hm).
    assert (Hsplit : MainScraper.parse_cards loc lvl cards
                     = (MainScraper.parse_cards loc lvl (firstn (2 * n) cards)
                        ++ MainScraper.parse_cards loc lvl (skipn (2 * n) cards))%list)
      by (rewrite <- parse_cards_app; now rewrite firstn_skipn).
    split; [exact Hout|]. split; [|split].
    + rewrite Hout, length_firstn. lia.
    + rewrite Hsplit, Hout.
      exists (skipn n (MainScraper.parse_cards loc lvl (firstn (2 * n) cards))
              ++ MainScraper.parse_cards loc lvl (skipn (2 * n) cards))%list.
      rewrite app_assoc, firstn_skipn. reflexivity.
    + intro Hlen. rewrite Hsplit, Hout, firstn_app.
      replace (n - length (MainScraper.parse_cards loc lvl (firstn (2 * n) cards))) with 0
        by lia.
      now rewrite app_nil_r.
  - split; vm_compute; reflexivity.
Qed.

Lemma card_cap_prefix_witness :
  MainScraper.extract_jobs "India" "Entry level" 5 Sample.page20
  = firstn 5 (MainScraper.parse_cards "India" "Entry level" (firstn 10 Sample.page20)).
Proof.
  exact (proj1 (proj1 (card_cap_prefix "India" "Entry level") 5%Z Sample.page20
                  ltac:(lia))).
Defined.

Lemma replace_space_no_space (s : string) :
  Py.str_in " " (Py.replace_char " " "%20" s) = false.
Proof.
  induction s as [|c s IH]; [reflexivity|].
  cbn [Py.replace_char]. destruct (Ascii.eqb c " ") eqn:E.
  - exact IH.
  - apply Ascii.eqb_neq in E. cbn [Py.str_in prefix].
    destruct (ascii_dec " " c) as [e|_]; [congruence|]. exact IH.
Qed.

Lemma replace_space_id (s : string) :
  Py.str_in " " s = false -> Py.replace_char " " "%20" s = s.
Proof.
  induction s as [|c s IH]; [reflexivity|].
  cbn [Py.str_in prefix]. intro H. apply orb_false_iff in H as [H1 H2].
  cbn [Py.replace_char]. destruct (Ascii.eqb_spec c " ") as [e|ne].
  - subst c. destruct (ascii_dec " " " ") as [_|n]; [|congruence].
    destruct s; simpl in H1; discriminate.
  - now rewrite IH.
Qed.

Lemma replace_space_pct20 (s : string) :
  Py.replace_char " " "%20" s = space_to_pct20 s.
Proof.
  induction s as [|c s IH]; [reflexivity|]. unfold space_to_pct20 in *.
  cbn [Py.replace_char list_ascii_of_string flat_map].
  rewrite string_of_list_ascii_app, IH. destruct (Ascii.eqb c " "); reflexivity.
Qed.

(** C6 (as stated, refuted): only spaces are encoded, so a skill such as
    "C#" (one of the resume parser's own skill names) puts a raw [#] into
    the query, and the URL's location part ends up in its fragment. *)
Lemma query_not_url_safe :
  url_safe (MainScraper.encoded_query ["C#"] 0) = false /\
  MainScraper.search_url ["C#"] "India" 0
  = "https://www.linkedin.com/jobs/search/?keywords=C#%20Internship&location=India".
Proof. split; vm_compute; reflexivity. Qed.

(** C6 (amended): the keyword query depends only on the first three
    skills; in the query (skills joined by spaces, then the experience
    label) and in the location every space becomes %20, and no other
    character is changed: the results contain no space, but reserved
    characters such as [#], [&] or [+] pass through unescaped. *)
Theorem query_first_three_spaces_encoded :
  (forall skills years,
     MainScraper.encoded_query skills years = MainScraper.encoded_query (firstn 3 skills) years) /\
  (forall skills years, Py.str_in " " (MainScraper.encoded_query skills years) = false) /\
  (forall location, Py.str_in " " (MainScraper.encoded_location location) = false) /\
  (forall location, Py.str_in " " location = false ->
     MainScraper.encoded_location location = location) /\
  (forall skills years,
     MainScraper.encoded_query skills years
     = space_to_pct20 (Py.join " " (firstn 3 skills) ++ " "
                       ++ MainScraper.level_label (MainScraper.experience_level_of years))) /\
  (forall location, MainScraper.encoded_location location = space_to_pct20 location) /\
  MainScraper.encoded_query ["C#"; "SQL"; "Spring Boot"; "Java"] 7
    = "C#%20SQL%20Spring%20Boot%20Mid-Senior%20level".
Proof.
  split; [|split; [|split; [|split; [|split; [|split]]]]].
  - intros skills years. unfold MainScraper.encoded_query. now rewrite firstn_firstn.
  - intros. apply replace_space_no_space.
  - intros. apply replace_space_no_space.
  - intros. now apply replace_space_id.
  - intros. apply replace_space_pct20.
  - intros. apply replace_space_pct20.
  - vm_compute. reflexivity.
Qed.

Lemma query_first_three_spaces_encoded_witness :
  MainScraper.encoded_location "R&D#1" = "R&D#1".
Proof.
  apply (proj1 (proj2 (proj2 (proj2 query_first_three_spaces_encoded)))).
  vm_compute. reflexivity.
Defined.

(** C7 (code bug): main.py creates the Chrome driver before its [try], so
    when the browser engine cannot start, its [scrape_linkedin_jobs] raises
    instead of returning an empty result, and [/search-jobs] answers a
    registered user with an HTTP 500. The sibling
    linkedin_scraper.py [scrape_linkedin_jobs], whose driver setup is inside
    its [try], returns [[]] on the same browser, and main.py itself returns
    an empty result for the equally fatal navigation failure. *)
Lemma launch_error_escapes :
  MainScraper.scrape_linkedin_jobs Sample.dead_browser ["Python"] "India" 0 10
    = Raised LaunchError /\
  MainScraper.search_jobs Sample.user_db "a@b.in" Sample.dead_browser ["Python"] "India" 0 10
    = MainScraper.HttpError 500 /\
  LinkedinScraper.scrape_linkedin_jobs Sample.dead_browser ["Python"] "India" 10 (Some 0%Z)
    = Ok [] /\
  MainScraper.scrape_linkedin_jobs Sample.offline_browser ["Python"] "India" 0 10 = Ok [] /\
  MainScraper.search_jobs Sample.user_db "a@b.in" Sample.offline_browser ["Python"] "India" 0 10
    = MainScraper.Success 0 [] [].
Proof. vm_compute. repeat split. Qed.

Lemma categorize_fold (js w l : list job) :
  fold_left LinkedinScraper.categorize_step js (w, l)
  = ((w ++ filter has_email js)%list,
     (l ++ filter (fun j => negb (has_email j)) js)%list).
Proof.
  revert w l; induction js as [|j js IH]; intros w l; simpl.
  - now rewrite !app_nil_r.
  - destruct (has_email j); simpl; rewrite IH; now rewrite <- !app_assoc.
Qed.

Lemma filter_subseq {A} (f : A -> bool) (l : list A) : subseq (filter f l) l.
Proof.
  induction l as [|x l IH]; simpl; [constructor|].
  destruct (f x); constructor; exact IH.
Qed.

Lemma count_occ_filter_split (f : job -> bool) (l : list job) (x : job) :
  count_occ job_eq_dec l x
  = count_occ job_eq_dec (filter f l) x
    + count_occ job_eq_dec (filter (fun j => negb (f j)) l) x.
Proof.
  induction l as [|y l IH]; simpl; [reflexivity|].
  destruct (f y); simpl; destruct (job_eq_dec y x); rewrite IH; lia.
Qed.

Lemma filter_partition_length (f : job -> bool) (l : list job) :
  length (filter f l) + length (filter (fun j => negb (f j)) l) = length l.
Proof.
  induction l as [|y l IH]; simpl; [reflexivity|].
  destruct (f y); simpl; lia.
Qed.

(** C8: [categorize_jobs] splits its input into the jobs with an HR
    email and the others: the two lengths add up to the input length,
    every job (with its multiplicity) lies in exactly one of them, each
    keeps the input order, and the three counts are these lengths. *)
Theorem categorize_partition :
  forall jobs,
  let c := LinkedinScraper.categorize_jobs jobs in
  let d := LinkedinScraper.direct_contact_jobs c in
  let s := LinkedinScraper.standard_jobs c in
  length d + length s = length jobs /\
  (forall j, In j jobs <-> In j d \/ In j s) /\
  (forall j, ~ (In j d /\ In j s)) /\
  (forall j, count_occ job_eq_dec jobs j = count_occ job_eq_dec d j + count_occ job_eq_dec s j) /\
  subseq d jobs /\ subseq s jobs /\
  LinkedinScraper.total_jobs c = length jobs /\
  LinkedinScraper.jobs_with_email c = length d /\
  LinkedinScraper.jobs_without_email c = length s.
Proof.
  intros jobs c d s.
  assert (Hd : d = filter has_email jobs /\ s = filter (fun j => negb (has_email j)) jobs).
  { subst c d s. unfold LinkedinScraper.categorize_jobs. rewrite categorize_fold. now split. }
  destruct Hd as [Hd Hs].
  assert (Hc : LinkedinScraper.total_jobs c = length jobs /\
               LinkedinScraper.jobs_with_email c = length d /\
               LinkedinScraper.jobs_without_email c = length s).
  { subst c d s. unfold LinkedinScraper.categorize_jobs. rewrite categorize_fold. now repeat split. }
  rewrite Hd, Hs in *.
  split; [apply filter_partition_length|].
  split; [|split; [|split; [|split; [|split]]]].
  - intro j. rewrite !filter_In. destruct (has_email j); simpl; intuition discriminate.
  - intros j [H1 H2]. apply filter_In in H1, H2. destruct H1 as [_ H1], H2 as [_ H2].
    rewrite H1 in H2. discriminate.
  - intro j. apply count_occ_filter_split.
  - apply filter_subseq.
  - apply filter_subseq.
  - exact Hc.
Qed.

(** C9: the phone patterns are tried in their fixed order and the first
    match of the first pattern that matches anywhere wins, with spaces and
    hyphens removed; nothing is returned when no pattern matches. *)
Theorem extract_phone_first_pattern :
  (forall text m rest, Re.findall ResumeParser.phone_p1 text = m :: rest ->
     ResumeParser.extract_phone text = Some (ResumeParser.clean_phone m)) /\
  (forall text m rest, Re.findall ResumeParser.phone_p1 text = [] ->
     Re.findall ResumeParser.phone_p2 text = m :: rest ->
     ResumeParser.extract_phone text = Some (ResumeParser.clean_phone m)) /\
  (forall text m rest, Re.findall ResumeParser.phone_p1 text = [] ->
     Re.findall ResumeParser.phone_p2 text = [] ->
     Re.findall ResumeParser.phone_p3 text = m :: rest ->
     ResumeParser.extract_phone text = Some (ResumeParser.clean_phone m)) /\
  (forall text m rest, Re.findall ResumeParser.phone_p1 text = [] ->
     Re.findall ResumeParser.phone_p2 text = [] ->
     Re.findall ResumeParser.phone_p3 text = [] ->
     Re.findall ResumeParser.phone_p4 text = m :: rest ->
     ResumeParser.extract_phone text = Some (ResumeParser.clean_phone m)) /\
  (forall text, Re.findall ResumeParser.phone_p1 text = [] ->
     Re.findall ResumeParser.phone_p2 text = [] ->
     Re.findall ResumeParser.phone_p3 text = [] ->
     Re.findall ResumeParser.phone_p4 text = [] ->
     ResumeParser.extract_phone text = None) /\
  ResumeParser.extract_phone "+91-9876543210" = Some "+919876543210" /\
  ResumeParser.extract_phone "9876543210" = Some "9876543210" /\
  ResumeParser.extract_phone "call 1234567890 or +91 9876543210" = Some "+919876543210".
Proof.
  unfold ResumeParser.extract_phone, ResumeParser.phone_patterns.
  split; [|split; [|split; [|split; [|split]]]]; intros;
    cbn [ResumeParser.extract_phone_from];
    repeat match goal with H : Re.findall _ _ = _ |- _ => rewrite H; clear H end;
    try reflexivity.
  repeat split; vm_compute; reflexivity.
Qed.

Lemma extract_phone_first_pattern_witness :
  ResumeParser.extract_phone "Phone: +91 98765 43210 / 9123456789"
  = Some (ResumeParser.clean_phone "9123456789").
Proof.
  destruct extract_phone_first_pattern as (_ & _ & H3 & _).
  apply (H3 _ "9123456789" []); vm_compute; reflexivity.
Defined.

Lemma prefix_spec (a b : string) : prefix a b = true <-> exists suf, b = a ++ suf.
Proof.
  revert b; induction a as [|x a IH]; intro b.
  - split; [intros _; now exists b | intros _; destruct b; reflexivity].
  - destruct b as [|y b]; simpl.
    + split; [discriminate | intros [suf H]; discriminate].
    + destruct (ascii_dec x y) as [->|ne].
      * rewrite IH. split; intros [suf H]; exists suf; [now subst | now injection H].
      * split; [discriminate | intros [suf H]; injection H; intros; congruence].
Qed.

Lemma str_in_spec (a b : string) :
  Py.str_in a b = true <-> exists pre suf, b = pre ++ a ++ suf.
Proof.
  induction b as [|y b IH]; cbn [Py.str_in].
  - rewrite orb_false_r, prefix_spec. split.
    + intros [suf H]. now exists "", suf.
    + intros [pre [suf H]]. destruct pre; [now exists suf | discriminate].
  - rewrite orb_true_iff, prefix_spec, IH. split.
    + intros [[suf H] | [pre [suf H]]].
      * now exists "", suf.
      * exists (String y pre), suf. simpl. now rewrite H.
    + intros [pre [suf H]]. destruct pre as [|z pre].
      * left. now exists suf.
      * right. injection H as -> Hb. now exists pre, suf.
Qed.

Lemma str_in_trans (a b c : string) :
  Py.str_in a b = true -> Py.str_in b c = true -> Py.str_in a c = true.
Proof.
  rewrite !str_in_spec. intros [p1 [s1 ->]] [p2 [s2 ->]].
  exists (p2 ++ p1), (s1 ++ s2). now rewrite !str_app_assoc.
Qed.

Lemma skill_found (text s : string) :
  In s ResumeParser.skill_keywords -> Py.str_in s (Py.lower text) = true ->
  In (Py.title s) (ResumeParser.extract_skills text).
Proof.
  intros Hs Hin. unfold ResumeParser.extract_skills, ResumeParser.found_skills.
  apply nodup_In, in_map, filter_In. now split.
Qed.

(** C10: skills are found by plain substring tests on the lower-cased
    text, so a vocabulary term contained in another term that is found is
    reported too; in particular a text containing "javascript" in any case
    yields both "Javascript" and "Java". *)
Theorem skills_substring_coreported :
  (forall text, Py.str_in "javascript" (Py.lower text) = true ->
     In "Javascript" (ResumeParser.extract_skills text) /\
     In "Java" (ResumeParser.extract_skills text)) /\
  (forall text s1 s2,
     In s1 ResumeParser.skill_keywords -> In s2 ResumeParser.skill_keywords ->
     Py.str_in s1 s2 = true -> Py.str_in s2 (Py.lower text) = true ->
     In (Py.title s1) (ResumeParser.extract_skills text) /\
     In (Py.title s2) (ResumeParser.extract_skills text)).
Proof.
  assert (Hgen : forall text s1 s2,
     In s1 ResumeParser.skill_keywords -> In s2 ResumeParser.skill_keywords ->
     Py.str_in s1 s2 = true -> Py.str_in s2 (Py.lower text) = true ->
     In (Py.title s1) (ResumeParser.extract_skills text) /\
     In (Py.title s2) (ResumeParser.extract_skills text)).
  { intros text s1 s2 H1 H2 H12 H2t. split; apply skill_found; auto.
    eapply str_in_trans; eassumption. }
  split; [|exact Hgen].
  intros text H.
  destruct (Hgen text "java" "javascript" ltac:(simpl; tauto) ltac:(simpl; tauto)
              eq_refl H) as [Hjava Hjs].
  split; [exact Hjs | exact Hjava].
Qed.

Lemma skills_substring_coreported_witness :
  In "Javascript" (ResumeParser.extract_skills "Senior JavaScript developer") /\
  In "Java" (ResumeParser.extract_skills "Senior JavaScript developer").
Proof.
  apply (proj1 skills_substring_coreported). vm_compute. reflexivity.
Defined.

(** ** Further properties of the code *)

Lemma scan_infix (pat : Re.pattern) :
  forall fuel before after m, In m (Re.scan fuel pat before after) ->
  exists p s, after = (p ++ m ++ s)%list.
Proof.
  induction fuel as [|f IH]; intros before after m H; simpl in H; [contradiction|].
  assert (Hskip : In m (match after with
                        | [] => []
                        | c :: a' => Re.scan f pat (c :: before) a'
                        end) -> exists p s, after = (p ++ m ++ s)%list).
  { destruct after as [|c a']; [contradiction|].
    intro H'. destruct (IH _ _ _ H') as [p [s ->]]. now exists (c :: p), s. }
  destruct (Re.mtch pat before after) as [rest|] eqn:E; [|exact (Hskip H)].
  destruct (mtch_suffix _ _ _ _ E) as [m0 Hm0].
  assert (Hfirst : firstn (length after - length rest) after = m0).
  { rewrite Hm0, length_app, Nat.add_sub, firstn_app, firstn_all,
            Nat.sub_diag, firstn_O, app_nil_r. reflexivity. }
  rewrite Hfirst in H. destruct m0 as [|x m0'].
  - destruct H as [<-|H]; [now exists [], after | exact (Hskip H)].
  - destruct H as [<-|H].
    + exists [], rest. simpl. now rewrite Hm0.
    + destruct (IH _ _ _ H) as [p [s ->]].
      exists (x :: m0' ++ p)%list, s. rewrite Hm0. simpl. now rewrite <- app_assoc.
Qed.

Lemma findall_in_text (pat : Re.pattern) (text m : string) :
  In m (Re.findall pat text) -> Py.str_in m text = true.
Proof.
  intro H. unfold Re.findall in H. apply in_map_iff in H as [ml [<- Hin]].
  destruct (scan_infix _ _ _ _ _ Hin) as [p [s Hs]].
  apply str_in_spec. exists (string_of_list_ascii p), (string_of_list_ascii s).
  rewrite <- !string_of_list_ascii_app, <- Hs.
  symmetry. apply string_of_list_ascii_of_string.
Qed.

Lemma extract_email_in_text (text e : string) :
  ResumeParser.extract_email text = Some e -> Py.str_in e text = true.
Proof.
  intro H. unfold ResumeParser.extract_email in H.
  destruct (Re.findall ResumeParser.email_pattern text) as [|x xs] eqn:E; [discriminate|].
  injection H as <-. apply (findall_in_text ResumeParser.email_pattern). rewrite E. now left.
Qed.

(** Every string that [re.findall] returns for one of the modelled
    patterns occurs in the searched text; so an extracted email is a
    substring of the text it was extracted from. *)
Theorem findall_substring :
  (forall pat text m, In m (Re.findall pat text) -> Py.str_in m text = true) /\
  (forall text e, ResumeParser.extract_email text = Some e -> Py.str_in e text = true) /\
  (forall text e, In e (LinkedinEmail.extract_email_from_text text) -> Py.str_in e text = true).
Proof.
  split; [exact findall_in_text|]. split; [exact extract_email_in_text|].
  intros text e H. destruct text as [|c t]; [contradiction|].
  unfold LinkedinEmail.extract_email_from_text in H. apply filter_In in H as [H _].
  exact (findall_in_text _ _ _ H).
Qed.

Lemma findall_substring_witness :
  Py.str_in "jane@corp.com" "contact: noreply@corp.com, jane@corp.com" = true.
Proof.
  apply (proj2 (proj2 findall_substring) "contact: noreply@corp.com, jane@corp.com").
  vm_compute. now left.
Defined.

Lemma run_prefix (p : ascii -> bool) :
  forall hi s k, k <= Re.run p hi s ->
  forallb p (firstn k s) = true /\ length (firstn k s) = k.
Proof.
  intros hi s. revert hi. induction s as [|c s IH]; intros hi k Hk.
  - destruct hi as [[|h]|]; simpl in Hk; assert (k = 0) by lia; subst; auto.
  - destruct k as [|k]; [simpl; auto|].
    assert (Hr : Re.run p hi (c :: s) =
                 match hi with Some 0 => 0
                 | _ => if p c then S (Re.run p (option_map pred hi) s) else 0 end)
      by (destruct hi as [[|h]|]; reflexivity).
    rewrite Hr in Hk. simpl.
    assert (Hh : hi <> Some 0) by (intros ->; lia).
    destruct (p c) eqn:Pc; [|destruct hi as [[|h]|]; lia].
    assert (Hk' : k <= Re.run p (option_map pred hi) s)
      by (destruct hi as [[|h]|]; [congruence| |]; lia).
    destruct (IH _ k Hk') as [H1 H2]. rewrite H1, H2. auto.
Qed.

Lemma run_bound (p : ascii -> bool) :
  forall h s, Re.run p (Some h) s <= h.
Proof.
  intros h s. revert h. induction s as [|c s IH]; intros [|h]; simpl; try lia.
  destruct (p c); [|lia]. specialize (IH h). simpl in IH. lia.
Qed.

Lemma mtch_matched (pat : Re.pattern) :
  forall before after rest, Re.mtch pat before after = Some rest ->
  exists m, after = (m ++ rest)%list /\ matched pat m.
Proof.
  induction pat as [|a pat IH]; intros before after rest H; simpl in H.
  - injection H as <-. now exists [].
  - destruct a as [c|p lo hi|].
    + destruct after as [|d after']; [discriminate|].
      destruct (Ascii.eqb_spec c d) as [<-|]; [|discriminate].
      destruct (IH _ _ _ H) as [m [-> Hm]]. exists (c :: m). split; [reflexivity|].
      simpl. eauto.
    + assert (Hn : forall n, n <= Re.run p hi after ->
        (fix back (n : nat) : option (list ascii) :=
           match (if Nat.leb lo n then Re.mtch pat (rev_append (firstn n after) before) (skipn n after)
                  else None) with
           | Some r => Some r
           | None => match n with 0 => None | S m => back m end
           end) n = Some rest ->
        exists m, after = (m ++ rest)%list /\ matched (Re.Cls p lo hi :: pat) m).
      { induction n as [|n IHn]; intros Hle Hb.
        - destruct (Nat.leb_spec lo 0) as [Hlo|]; [|discriminate].
          destruct (Re.mtch pat _ (skipn 0 after)) eqn:E; [|discriminate].
          injection Hb as ->. destruct (IH _ _ _ E) as [m [Hm Hmm]].
          exists m. split; [exact Hm|]. exists [], m. simpl. repeat split; auto; try lia.
          destruct hi; lia.
        - destruct (Nat.leb_spec lo (S n)) as [Hlo|Hlo].
          + destruct (Re.mtch pat _ (skipn (S n) after)) eqn:E.
            * injection Hb as ->. destruct (IH _ _ _ E) as [m [Hm Hmm]].
              destruct (run_prefix p hi after (S n) Hle) as [Hp Hl].
              exists (firstn (S n) after ++ m)%list.
              split; [rewrite <- app_assoc, <- Hm; symmetry; apply firstn_skipn|].
              exists (firstn (S n) after), m. rewrite Hl. repeat split; auto.
              destruct hi as [h|]; auto. pose proof (run_bound p h after). lia.
            * exact (IHn ltac:(lia) Hb).
          + exact (IHn ltac:(lia) Hb). }
      exact (Hn _ (le_n _) H).
    + destruct (Re.boundary before after); [|discriminate].
      exact (IH _ _ _ H).
Qed.

Lemma scan_matched (pat : Re.pattern) :
  forall fuel before after m, In m (Re.scan fuel pat before after) -> matched pat m.
Proof.
  induction fuel as [|f IH]; intros before after m H; simpl in H; [contradiction|].
  assert (Hskip : In m (match after with
                        | [] => []
                        | c :: a' => Re.scan f pat (c :: before) a'
                        end) -> matched pat m).
  { destruct after as [|c a']; [contradiction|]. apply IH. }
  destruct (Re.mtch pat before after) as [rest|] eqn:E; [|exact (Hskip H)].
  destruct (mtch_matched _ _ _ _ E) as [m0 [Hm0 Hmm]].
  assert (Hfirst : firstn (length after - length rest) after = m0).
  { rewrite Hm0, length_app, Nat.add_sub, firstn_app, firstn_all,
            Nat.sub_diag, firstn_O, app_nil_r. reflexivity. }
  rewrite Hfirst in H. destruct m0 as [|x m0'].
  - destruct H as [<-|H]; [exact Hmm | exact (Hskip H)].
  - destruct H as [<-|H]; [exact Hmm | exact (IH _ _ _ H)].
Qed.

Lemma findall_matched (pat : Re.pattern) (text m : string) :
  In m (Re.findall pat text) -> matched pat (list_ascii_of_string m).
Proof.
  unfold Re.findall. intro H. apply in_map_iff in H as [ml [<- Hin]].
  rewrite list_ascii_of_string_of_list_ascii. exact (scan_matched _ _ _ _ _ Hin).
Qed.

Lemma replace_char_empty (y : ascii) (s : string) :
  list_ascii_of_string (Py.replace_char y "" s) =
  filter (fun c => negb (Ascii.eqb c y)) (list_ascii_of_string s).
Proof.
  induction s as [|c s IH]; simpl; [reflexivity|].
  destruct (Ascii.eqb c y); simpl; now rewrite IH.
Qed.

Definition phone_keep (l : list ascii) : list ascii :=
  filter (fun c => negb (Ascii.eqb c "-")) (filter (fun c => negb (Ascii.eqb c " ")) l).

Lemma clean_phone_list (s : string) :
  list_ascii_of_string (ResumeParser.clean_phone s) = phone_keep (list_ascii_of_string s).
Proof. unfold ResumeParser.clean_phone, phone_keep. now rewrite !replace_char_empty. Qed.

Lemma phone_keep_app (a b : list ascii) :
  phone_keep (a ++ b) = (phone_keep a ++ phone_keep b)%list.
Proof. unfold phone_keep. now rewrite !filter_app. Qed.

Lemma phone_keep_digits (d : list ascii) :
  forallb Py.is_digit d = true -> phone_keep d = d.
Proof.
  unfold phone_keep. induction d as [|c d IH]; simpl; [reflexivity|].
  intro H. apply andb_prop in H as [Hc Hd].
  destruct (Ascii.eqb_spec c " ") as [->|]; [discriminate|].
  destruct (Ascii.eqb_spec c "-") as [->|]; [discriminate|].
  simpl. destruct (Ascii.eqb_spec c "-"); [contradiction|]. simpl. now rewrite IH.
Qed.

Lemma phone_keep_sep (q : ascii -> bool) (m : list ascii) :
  (forall c, q c = true -> Ascii.eqb c "-" = true \/ Py.is_space c = true) ->
  forallb q m = true ->
  length (phone_keep m) <= length m /\
  forallb (fun c => Py.is_space c && negb (Ascii.eqb c " ")) (phone_keep m) = true.
Proof.
  unfold phone_keep. intro Hq. induction m as [|c m IH]; simpl; [auto|].
  intro H. apply andb_prop in H as [Hc Hm]. destruct (IH Hm) as [IH1 IH2].
  destruct (Ascii.eqb_spec c " ") as [->|Hs]; simpl; [split; [lia|exact IH2]|].
  destruct (Ascii.eqb_spec c "-") as [->|Hd]; simpl; [split; [lia|exact IH2]|].
  split; [lia|]. rewrite IH2, andb_true_r.
  destruct (Hq c Hc) as [E|E]; [apply Ascii.eqb_eq in E; contradiction|].
  rewrite E. simpl. destruct (Ascii.eqb_spec c " "); [contradiction|reflexivity].
Qed.

(** [extract_phone] returns ["+91"] followed by ten digits or ten digits,
    where a [-] or a space between the parts is removed by the cleaning
    but another whitespace character matched by [\s] (a tab, a newline)
    is kept: the result is ["+91"], at most one non-space whitespace
    character and ten digits, or five digits, at most one such character
    and five digits. *)
Theorem extract_phone_shape (text ph : string) :
  ResumeParser.extract_phone text = Some ph ->
  (exists sep d,
     list_ascii_of_string ph = (list_ascii_of_string "+91" ++ sep ++ d)%list /\
     length sep <= 1 /\
     forallb (fun c => Py.is_space c && negb (Ascii.eqb c " ")) sep = true /\
     length d = 10 /\ forallb Py.is_digit d = true) \/
  (exists d1 sep d2,
     list_ascii_of_string ph = (d1 ++ sep ++ d2)%list /\
     length sep <= 1 /\
     forallb (fun c => Py.is_space c && negb (Ascii.eqb c " ")) sep = true /\
     length d1 = 5 /\ forallb Py.is_digit d1 = true /\
     length d2 = 5 /\ forallb Py.is_digit d2 = true).
Proof.
  intro H. unfold ResumeParser.extract_phone, ResumeParser.phone_patterns in H.
  cbn [ResumeParser.extract_phone_from] in H.
  destruct (Re.findall ResumeParser.phone_p1 text) as [|x1 l1] eqn:E1.
  2:{ injection H as <-. left.
      assert (M : matched ResumeParser.phone_p1 (list_ascii_of_string x1))
        by (apply findall_matched with text; rewrite E1; now left).
      simpl in M.
      destruct M as [m1 [Hx [m2 [-> [m3 [-> [s [m4 [-> [_ [Hs1 [Hs2 [d [m5 [-> [Hd1 [Hd2 [Hd3 ->]]]]]]]]]]]]]]]]]].
      destruct (phone_keep_sep (fun c => Pat.in_chars "-" c || Pat.space c) s)
        as [Hk1 Hk2]; [|exact Hs2|].
      { intros c Hc. unfold Pat.in_chars, Pat.space in Hc. simpl in Hc.
        destruct (Ascii.eqb c "-"); simpl in Hc; auto. }
      exists (phone_keep s), d. rewrite clean_phone_list, Hx.
      rewrite app_nil_r in *.
      change (phone_keep ("+"%char :: "9"%char :: "1"%char :: s ++ d))
        with (phone_keep (["+"%char; "9"%char; "1"%char] ++ s ++ d)).
      rewrite !phone_keep_app, (phone_keep_digits d) by exact Hd3.
      repeat split; auto; lia. }
  destruct (Re.findall ResumeParser.phone_p2 text) as [|x2 l2] eqn:E2.
  2:{ injection H as <-. left.
      assert (M : matched ResumeParser.phone_p2 (list_ascii_of_string x2))
        by (apply findall_matched with text; rewrite E2; now left).
      simpl in M.
      destruct M as [m1 [Hx [m2 [-> [m3 [-> [d [m5 [-> [Hd1 [Hd2 [Hd3 ->]]]]]]]]]]]].
      exists [], d. rewrite clean_phone_list, Hx, app_nil_r.
      change (phone_keep ("+"%char :: "9"%char :: "1"%char :: d))
        with (phone_keep (["+"%char; "9"%char; "1"%char] ++ d)).
      rewrite phone_keep_app, (phone_keep_digits d) by exact Hd3.
      repeat split; auto; lia. }
  destruct (Re.findall ResumeParser.phone_p3 text) as [|x3 l3] eqn:E3.
  2:{ injection H as <-. right.
      assert (M : matched ResumeParser.phone_p3 (list_ascii_of_string x3))
        by (apply findall_matched with text; rewrite E3; now left).
      simpl in M. destruct M as [d [m5 [Hx [Hd1 [Hd2 [Hd3 ->]]]]]].
      rewrite app_nil_r in Hx.
      assert (Hab : forallb Py.is_digit (firstn 5 d) = true /\
                    forallb Py.is_digit (skipn 5 d) = true).
      { apply andb_prop. rewrite <- forallb_app, firstn_skipn. exact Hd3. }
      exists (firstn 5 d), [], (skipn 5 d).
      rewrite clean_phone_list, Hx, (phone_keep_digits d) by exact Hd3.
      cbn [app]. rewrite firstn_skipn, length_firstn, length_skipn.
      repeat split; try apply Hab; auto; lia. }
  destruct (Re.findall ResumeParser.phone_p4 text) as [|x4 l4] eqn:E4; [discriminate|].
  injection H as <-. right.
  assert (M : matched ResumeParser.phone_p4 (list_ascii_of_string x4))
    by (apply findall_matched with text; rewrite E4; now left).
  simpl in M.
  destruct M as [d1 [m1 [Hx [Hd11 [Hd12 [Hd13 [s [m2 [-> [_ [Hs1 [Hs2 [d2 [m3 [-> [Hd21 [Hd22 [Hd23 ->]]]]]]]]]]]]]]]]]].
  destruct (phone_keep_sep Pat.space s) as [Hk1 Hk2]; [|exact Hs2|].
  { intros c Hc. now right. }
  exists d1, (phone_keep s), d2.
  rewrite clean_phone_list, Hx, app_nil_r, !phone_keep_app,
          (phone_keep_digits d1) by exact Hd13.
  rewrite (phone_keep_digits d2) by exact Hd23.
  repeat split; auto; lia.
Qed.

Lemma extract_phone_shape_witness :
  ResumeParser.extract_phone "Mobile: +91	9876543210" = Some "+91	9876543210" /\
  ((exists sep d,
     list_ascii_of_string "+91	9876543210" = (list_ascii_of_string "+91" ++ sep ++ d)%list /\
     length sep <= 1 /\
     forallb (fun c => Py.is_space c && negb (Ascii.eqb c " ")) sep = true /\
     length d = 10 /\ forallb Py.is_digit d = true) \/
   (exists d1 sep d2,
     list_ascii_of_string "+91	9876543210" = (d1 ++ sep ++ d2)%list /\
     length sep <= 1 /\
     forallb (fun c => Py.is_space c && negb (Ascii.eqb c " ")) sep = true /\
     length d1 = 5 /\ forallb Py.is_digit d1 = true /\
     length d2 = 5 /\ forallb Py.is_digit d2 = true)).
Proof.
  split; [vm_compute; reflexivity|].
  apply (extract_phone_shape "Mobile: +91	9876543210"). vm_compute. reflexivity.
Defined.

Lemma lower_app (x y : string) : Py.lower (x ++ y) = Py.lower x ++ Py.lower y.
Proof. induction x as [|c x IH]; simpl; [reflexivity | now rewrite IH]. Qed.

Lemma str_in_lower (a b : string) :
  Py.str_in a b = true -> Py.str_in (Py.lower a) (Py.lower b) = true.
Proof.
  rewrite !str_in_spec. intros [pre [suf ->]].
  exists (Py.lower pre), (Py.lower suf). now rewrite !lower_app.
Qed.

Lemma page_in_extract_text (page : Type) (get_text : page -> string) (pages : list page) p :
  In p pages -> Py.str_in (get_text p) (extract_text page get_text pages) = true.
Proof.
  intro Hp. apply in_split in Hp as [l1 [l2 ->]].
  rewrite extract_text_concat, map_app, concat_empty_app. cbn [map].
  rewrite concat_empty_cons. apply str_in_spec.
  now exists (String.concat "" (map get_text l1)), (String.concat "" (map get_text l2)).
Qed.

(** [extract_skills] is monotone: a skill found in a piece of text is found
    in any text containing it, in particular a skill found on one page of a
    PDF is found in the extracted text of the whole document; the result
    depends only on the lower-cased text. The converse fails: a keyword
    split across two pages is found in the document but on no page. *)
Theorem extract_skills_monotone :
  (forall a b, Py.str_in a b = true ->
     incl (ResumeParser.extract_skills a) (ResumeParser.extract_skills b)) /\
  (forall t t', Py.lower t = Py.lower t' ->
     ResumeParser.extract_skills t = ResumeParser.extract_skills t') /\
  (forall (page : Type) (get_text : page -> string) pages p, In p pages ->
     incl (ResumeParser.extract_skills (get_text p))
          (ResumeParser.extract_skills (extract_text page get_text pages))) /\
  ResumeParser.extract_skills (extract_text string (fun s => s) ["Ja"; "va"]) = ["Java"] /\
  ResumeParser.extract_skills "Ja" = [] /\
  ResumeParser.extract_skills "va" = [].
Proof.
  assert (Hmono : forall a b, Py.str_in a b = true ->
     incl (ResumeParser.extract_skills a) (ResumeParser.extract_skills b)).
  { intros a b Hab s. unfold ResumeParser.extract_skills, ResumeParser.found_skills.
    rewrite !nodup_In, !in_map_iff. intros [k [<- Hk]]. exists k. split; [reflexivity|].
    apply filter_In in Hk as [Hk1 Hk2]. apply filter_In. split; [exact Hk1|].
    exact (str_in_trans _ _ _ Hk2 (str_in_lower _ _ Hab)). }
  split; [exact Hmono|]. split.
  - intros t t' E. unfold ResumeParser.extract_skills, ResumeParser.found_skills.
    now rewrite E.
  - split; [intros page get_text pages p Hp; apply Hmono, page_in_extract_text, Hp|].
    vm_compute. repeat split.
Qed.

Lemma extract_skills_monotone_witness :
  incl (ResumeParser.extract_skills "Java")
       (ResumeParser.extract_skills "I write Java and SQL").
Proof.
  apply (proj1 extract_skills_monotone). vm_compute. reflexivity.
Defined.

Lemma nth_error_firstn_lt {A} (n i : nat) (l : list A) (x : A) :
  nth_error (firstn n l) i = Some x <-> i < n /\ nth_error l i = Some x.
Proof.
  revert i l. induction n as [|n IH]; intros i l; simpl.
  - destruct i; simpl; split; try discriminate; intros [H _]; lia.
  - destruct l as [|y l], i as [|i]; simpl.
    + split; [discriminate | intros [_ H]; discriminate].
    + split; [discriminate | intros [_ H]; discriminate].
    + split; [intro H; split; [lia | exact H] | intros [_ H]; exact H].
    + rewrite IH. split; intros [H1 H2]; split; auto; lia.
Qed.

Lemma first_name_line_some (lines : list string) (n : string) :
  ResumeName.first_name_line lines = Some n ->
  exists i line, nth_error lines i = Some line /\ n = Py.strip line /\
    ResumeName.qualifies n = true /\
    (forall j l, j < i -> nth_error lines j = Some l ->
                 ResumeName.qualifies (Py.strip l) = false).
Proof.
  induction lines as [|line rest IH]; simpl; [discriminate|].
  destruct (ResumeName.qualifies (Py.strip line)) eqn:Q.
  - intro H. injection H as <-. exists 0, line. repeat split; auto.
    intros j l Hj. lia.
  - intro H. destruct (IH H) as [i [l0 [H1 [H2 [H3 H4]]]]].
    exists (S i), l0. repeat split; auto.
    intros [|j] l Hj Hl; simpl in Hl; [injection Hl as <-; exact Q|].
    apply (H4 j); [lia | exact Hl].
Qed.

Lemma first_name_line_none (lines : list string) :
  ResumeName.first_name_line lines = None <->
  (forall j l, nth_error lines j = Some l -> ResumeName.qualifies (Py.strip l) = false).
Proof.
  induction lines as [|line rest IH]; simpl.
  - split; [intros _ [|j] l H; discriminate | reflexivity].
  - destruct (ResumeName.qualifies (Py.strip line)) eqn:Q.
    + split; [discriminate|]. intro H. specialize (H 0 line eq_refl). congruence.
    + rewrite IH. split.
      * intros H [|j] l Hl; simpl in Hl; [injection Hl as <-; exact Q | exact (H j l Hl)].
      * intros H j l Hl. exact (H (S j) l Hl).
Qed.

(** [extract_name] returns the first of the first five lines of the text
    (split at newlines) that, once stripped, is non-empty, has at most four
    whitespace-separated words and contains no [@]; it returns the
    stripped line.  It returns [None] exactly when none of those five lines
    qualifies, whatever the later lines are. *)
Theorem extract_name_spec (text : string) :
  (forall n, ResumeName.extract_name text = Some n ->
   exists i line,
     i < 5 /\ nth_error (PySplit.split_char PySplit.newline text) i = Some line /\
     n = Py.strip line /\ n <> "" /\
     List.length (PySplit.split_ws n) <= 4 /\ Py.str_in "@" n = false /\
     (forall j l, j < i -> nth_error (PySplit.split_char PySplit.newline text) j = Some l ->
                  ResumeName.qualifies (Py.strip l) = false)) /\
  (ResumeName.extract_name text = None <->
   forall j l, j < 5 -> nth_error (PySplit.split_char PySplit.newline text) j = Some l ->
               ResumeName.qualifies (Py.strip l) = false).
Proof.
  unfold ResumeName.extract_name. split.
  - intros n H. destruct (first_name_line_some _ _ H) as [i [line [H1 [H2 [H3 H4]]]]].
    apply nth_error_firstn_lt in H1 as [Hi H1].
    unfold ResumeName.qualifies in H3.
    apply andb_prop in H3 as [H3 H5]. apply andb_prop in H3 as [H3 H6].
    apply negb_true_iff in H3, H5. apply Nat.leb_le in H6.
    exists i, line. repeat split; auto.
    + intro E. rewrite E in H3. discriminate.
    + intros j l Hj Hl. apply (H4 j); [exact Hj|]. apply nth_error_firstn_lt. split; [lia|exact Hl].
  - rewrite first_name_line_none. split.
    + intros H j l Hj Hl. apply (H j). now apply nth_error_firstn_lt.
    + intros H j l Hl. apply nth_error_firstn_lt in Hl as [Hj Hl]. exact (H j l Hj Hl).
Qed.

Lemma extract_name_spec_witness :
  ResumeName.extract_name "  
Jane A. Doe
jane@doe.com" = Some "Jane A. Doe" /\
  exists i line,
     i < 5 /\ nth_error (PySplit.split_char PySplit.newline "  
Jane A. Doe
jane@doe.com") i = Some line /\
     "Jane A. Doe" = Py.strip line /\ "Jane A. Doe" <> "" /\
     List.length (PySplit.split_ws "Jane A. Doe") <= 4 /\ Py.str_in "@" "Jane A. Doe" = false /\
     (forall j l, j < i -> nth_error (PySplit.split_char PySplit.newline "  
Jane A. Doe
jane@doe.com") j = Some l ->
                  ResumeName.qualifies (Py.strip l) = false).
Proof.
  split; [vm_compute; reflexivity|].
  apply (proj1 (extract_name_spec "  
Jane A. Doe
jane@doe.com")). vm_compute. reflexivity.
Defined.

Lemma concat_all_empty {A} (f : A -> string) (xs : list A) :
  Forall (fun x => f x = "") xs -> String.concat "" (map f xs) = "".
Proof.
  induction 1 as [|x xs Hx _ IH]; [reflexivity|].
  cbn [map]. now rewrite concat_empty_cons, Hx, IH.
Qed.

(** [parse_resume]: the raw text is the concatenation of the page texts,
    the email, when one is found, occurs in it, and a document whose
    pages have no text gives a profile with no name, email or phone and no
    skills. *)
Theorem parse_resume_profile (page : Type) (get_text : page -> string) (pages : list page) :
  ResumeName.p_raw_text (ResumeName.parse_resume page get_text pages)
    = String.concat "" (map get_text pages) /\
  (forall e, ResumeName.p_email (ResumeName.parse_resume page get_text pages) = Some e ->
     Py.str_in e (ResumeName.p_raw_text (ResumeName.parse_resume page get_text pages)) = true) /\
  (Forall (fun p => get_text p = "") pages ->
   ResumeName.parse_resume page get_text pages =
   {| ResumeName.p_name := None; ResumeName.p_email := None; ResumeName.p_phone := None;
      ResumeName.p_skills := []; ResumeName.p_raw_text := "" |}).
Proof.
  split; [apply extract_text_concat|]. split.
  - intros e H. exact (extract_email_in_text _ _ H).
  - intro H. unfold ResumeName.parse_resume.
    rewrite extract_text_concat, (concat_all_empty _ _ H). vm_compute. reflexivity.
Qed.

Lemma parse_resume_profile_witness :
  ResumeName.parse_resume string (fun p => p) ["";""] =
   {| ResumeName.p_name := None; ResumeName.p_email := None; ResumeName.p_phone := None;
      ResumeName.p_skills := []; ResumeName.p_raw_text := "" |}.
Proof.
  apply (proj2 (proj2 (parse_resume_profile string (fun p => p) ["";""]))).
  repeat constructor.
Defined.

(** The three experience-level mappings ([experience_level_of] in
    main.py, the URL filter of linkedin_scraper.py's
    [scrape_linkedin_jobs] and its [get_experience_level]) cut the years
    at the same points: each year count falls in the same one of four
    buckets for all three.  A negative year count is put in the entry
    bucket, and no year count gives the no-filter answers. *)
Theorem experience_buckets_agree :
  (forall y : Z,
     In (MainScraper.experience_level_of y,
         LinkedinScraper.experience_filter (Some y),
         LinkedinLevel.get_experience_level (Some y))
        [(MainScraper.Internship, "&f_E=1", "Fresher/Internship (0 years)");
         (MainScraper.EntryLevel, "&f_E=1,2", "Entry Level (0-2 years)");
         (MainScraper.Associate, "&f_E=3,4", "Mid Level (2-5 years)");
         (MainScraper.MidSeniorLevel, "&f_E=5,6", "Senior Level (5+ years)")]) /\
  (forall y : Z, (y < 0)%Z ->
     MainScraper.experience_level_of y = MainScraper.EntryLevel /\
     LinkedinScraper.experience_filter (Some y) = "&f_E=1,2" /\
     LinkedinLevel.get_experience_level (Some y) = "Entry Level (0-2 years)") /\
  (forall y : Z,
     LinkedinScraper.experience_filter (Some y) <> LinkedinScraper.experience_filter None /\
     LinkedinLevel.get_experience_level (Some y) <> LinkedinLevel.get_experience_level None).
Proof.
  unfold MainScraper.experience_level_of, LinkedinScraper.experience_filter,
         LinkedinLevel.get_experience_level.
  split; [|split].
  - intro y. destruct (y =? 0)%Z; [now left|].
    destruct (y <=? 2)%Z; [right; now left|].
    destruct (y <=? 5)%Z; [right; right; now left|]. right; right; right; now left.
  - intros y Hy. destruct (Z.eqb_spec y 0); [lia|].
    destruct (Z.leb_spec y 2); [auto|lia].
  - intro y. destruct (y =? 0)%Z; [split; discriminate|].
    destruct (y <=? 2)%Z; [split; discriminate|].
    destruct (y <=? 5)%Z; split; discriminate.
Qed.

Lemma experience_buckets_agree_witness :
  MainScraper.experience_level_of (-3) = MainScraper.EntryLevel /\
  LinkedinScraper.experience_filter (Some (-3)%Z) = "&f_E=1,2" /\
  LinkedinLevel.get_experience_level (Some (-3)%Z) = "Entry Level (0-2 years)".
Proof. apply (proj1 (proj2 experience_buckets_agree) (-3)%Z). lia. Defined.

Lemma Forall_firstn_any {A} (P : A -> Prop) (n : nat) (xs : list A) :
  Forall P xs -> Forall P (firstn n xs).
Proof.
  revert xs. induction n as [|n IH]; intros xs H; [constructor|].
  destruct H; simpl; constructor; auto.
Qed.

Lemma Forall_py_take {A} (P : A -> Prop) (n : Z) (xs : list A) :
  Forall P xs -> Forall P (py_take n xs).
Proof. unfold py_take. destruct (0 <=? n)%Z; apply Forall_firstn_any. Qed.

Lemma main_parse_cards_fields location lvl (cards : list card) :
  Forall (fun j => job_id j = None /\ hr_email j = None /\ experience_level j = Some lvl)
         (MainScraper.parse_cards location lvl cards).
Proof.
  induction cards as [|c cs IH]; simpl; [constructor|].
  unfold MainScraper.parse_card at 1.
  destruct (title_elem c), (company_elem c), (link_elem c) as [[href|]|]; auto.
Qed.

(** main.py's [/search-jobs]: for a user with no row in [users] the
    endpoint answers 500 (the 404 is caught by [except Exception]); for a
    registered user it answers 500 when the browser engine does not start,
    and otherwise it succeeds, and since the scraper never sets [hr_email],
    [jobs_with_email] is always empty and every job is listed without
    email, with no id and the level of the search. *)
Theorem search_jobs_no_direct_contacts (d : MainDb.db) (user_email : string) (b : browser)
    (skills : list string) (location : string) (experience_years max_jobs : Z) :
  (MainDb.find_user d user_email = None ->
   MainScraper.search_jobs d user_email b skills location experience_years max_jobs
   = MainScraper.HttpError 500) /\
  (forall u, MainDb.find_user d user_email = Some u ->
   engine_starts b = false ->
   MainScraper.search_jobs d user_email b skills location experience_years max_jobs
   = MainScraper.HttpError 500) /\
  (forall u, MainDb.find_user d user_email = Some u ->
   engine_starts b = true ->
   exists jobs,
     MainScraper.search_jobs d user_email b skills location experience_years max_jobs
     = MainScraper.Success (length jobs) [] jobs /\
     Forall (fun j => job_id j = None /\ hr_email j = None /\
               experience_level j = Some (MainScraper.level_label
                                            (MainScraper.experience_level_of experience_years)))
            jobs).
Proof.
  unfold MainScraper.search_jobs.
  split; [intro U; now rewrite U|].
  split; intros u U E; rewrite U; unfold MainScraper.scrape_linkedin_jobs; rewrite E;
    [reflexivity|]. simpl.
  set (lvl := MainScraper.level_label (MainScraper.experience_level_of experience_years)).
  assert (Hcases : forall jobs : list job,
     Forall (fun j => job_id j = None /\ hr_email j = None /\ experience_level j = Some lvl) jobs ->
     exists jobs', MainScraper.Success (length jobs) (filter has_email jobs)
                     (filter (fun j => negb (has_email j)) jobs)
                   = MainScraper.Success (length jobs') [] jobs' /\
                   Forall (fun j => job_id j = None /\ hr_email j = None /\
                                    experience_level j = Some lvl) jobs').
  { intros jobs H. exists jobs. split; [|exact H].
    assert (Hf : forall j, In j jobs -> has_email j = false).
    { intros j Hj. rewrite Forall_forall in H. destruct (H j Hj) as [_ [He _]].
      unfold has_email. now rewrite He. }
    assert (H1 : filter has_email jobs = []).
    { induction jobs as [|j js IHj]; [reflexivity|]. simpl.
      rewrite (Hf j (or_introl eq_refl)). apply IHj; [now inversion H|].
      intros j' Hj'. apply Hf. now right. }
    assert (H2 : filter (fun j => negb (has_email j)) jobs = jobs).
    { clear H1. induction jobs as [|j js IHj]; [reflexivity|]. simpl.
      rewrite (Hf j (or_introl eq_refl)). simpl. f_equal. apply IHj; [now inversion H|].
      intros j' Hj'. apply Hf. now right. }
    now rewrite H1, H2. }
  destruct (fetch b _) as [cards|]; apply Hcases.
  - unfold MainScraper.extract_jobs. apply Forall_py_take, main_parse_cards_fields.
  - apply Forall_py_take. constructor.
Qed.

Lemma search_jobs_no_direct_contacts_witness :
  MainDb.find_user Sample.user_db "nobody@x.in" = None /\
  MainScraper.search_jobs Sample.user_db "nobody@x.in" Sample.offline_browser ["Python"] "India" 0 50
  = MainScraper.HttpError 500.
Proof.
  split; [reflexivity|].
  apply (proj1 (search_jobs_no_direct_contacts Sample.user_db "nobody@x.in"
                  Sample.offline_browser ["Python"] "India" 0 50)).
  reflexivity.
Defined.

Lemma linkedin_parse_cards_ids (cards : list card) :
  forall idx, exists ids,
    map job_id (LinkedinScraper.parse_cards idx cards) = map Some ids /\
    StronglySorted lt ids /\
    Forall (fun i => idx <= i < idx + length cards) ids /\
    Forall (fun j => hr_email j = None) (LinkedinScraper.parse_cards idx cards) /\
    length (LinkedinScraper.parse_cards idx cards) <= length cards.
Proof.
  induction cards as [|c cs IH]; intro idx; simpl.
  - exists []. repeat split; constructor.
  - destruct (IH (S idx)) as [ids [H1 [H2 [H3 [H4 H5]]]]].
    destruct (LinkedinScraper.parse_card idx c) as [j|] eqn:E.
    + assert (Hj : job_id j = Some idx /\ hr_email j = None).
      { unfold LinkedinScraper.parse_card in E.
        destruct (title_elem c), (company_elem c), (location_elem c), (link_elem c);
          try discriminate. injection E as <-. now split. }
      exists (idx :: ids). simpl. rewrite H1, (proj1 Hj). repeat split.
      * constructor; [exact H2|]. eapply Forall_impl; [|exact H3]. simpl. lia.
      * constructor; [lia|]. eapply Forall_impl; [|exact H3]. simpl. lia.
      * constructor; [exact (proj2 Hj) | exact H4].
      * simpl. lia.
    + exists ids. repeat split; auto.
      eapply Forall_impl; [|exact H3]. simpl. lia.
Qed.

Lemma py_take_length_le {A} (n : Z) (xs : list A) :
  (0 <= n)%Z -> length (py_take n xs) <= Z.to_nat n.
Proof. intro H. rewrite py_take_nonneg by exact H. rewrite length_firstn. lia. Qed.

Lemma linkedin_parse_card_id (i : nat) (c : card) (j : job) :
  LinkedinScraper.parse_card i c = Some j -> job_id j = Some i.
Proof.
  unfold LinkedinScraper.parse_card.
  destruct (title_elem c), (company_elem c), (location_elem c), (link_elem c);
    try discriminate. now intros [= <-].
Qed.

(** A job of [parse_cards idx cards] is the parse of the card at some
    position [k], made with index [idx + k]. *)
Lemma linkedin_parse_cards_pos (cards : list card) :
  forall idx j, In j (LinkedinScraper.parse_cards idx cards) <->
  exists k c, nth_error cards k = Some c /\ LinkedinScraper.parse_card (idx + k) c = Some j.
Proof.
  induction cards as [|c cs IH]; intros idx j; simpl.
  - split; [contradiction|]. intros [[|k] [c [H _]]]; discriminate.
  - assert (Htail : In j (LinkedinScraper.parse_cards (S idx) cs) <->
                    exists k c', nth_error (c :: cs) (S k) = Some c' /\
                                 LinkedinScraper.parse_card (idx + S k) c' = Some j).
    { rewrite IH. split; intros [k [c' [H1 H2]]]; exists k, c'; split; try exact H1;
        [rewrite <- Nat.add_succ_comm | rewrite Nat.add_succ_comm]; exact H2. }
    destruct (LinkedinScraper.parse_card idx c) as [j0|] eqn:E; simpl.
    + split.
      * intros [<-|H]; [exists 0, c; now rewrite Nat.add_0_r|].
        apply Htail in H as [k H]. now exists (S k).
      * intros [[|k] [c' [H1 H2]]].
        -- left. injection H1 as <-. rewrite Nat.add_0_r, E in H2. congruence.
        -- right. apply Htail. now exists k, c'.
    + split.
      * intro H. apply Htail in H as [k H]. now exists (S k).
      * intros [[|k] [c' [H1 H2]]].
        -- injection H1 as <-. rewrite Nat.add_0_r, E in H2. discriminate.
        -- apply Htail. now exists k, c'.
Qed.

(** linkedin_scraper.py's [scrape_linkedin_jobs] never raises (a browser
    that does not start gives [[]]); each job is the parse of the card at
    1-based position [i] of [job_cards[:max_jobs]] and carries [i] as its
    [id], and every card with all its elements gives a job; so the ids
    strictly increase and, for [max_jobs >= 0], lie in [1..max_jobs], and
    there are at most [max_jobs] jobs; no job has an HR email, so
    [categorize_jobs] puts all of them among the standard jobs. *)
Theorem linkedin_scrape_ids (b : browser) (skills : list string) (location : string)
    (max_jobs : Z) (experience_years : option Z) :
  exists jobs ids,
    LinkedinScraper.scrape_linkedin_jobs b skills location max_jobs experience_years = Ok jobs /\
    map job_id jobs = map Some ids /\ StronglySorted lt ids /\
    Forall (fun i => 1 <= i) ids /\
    ((0 <= max_jobs)%Z -> Forall (fun i => i <= Z.to_nat max_jobs) ids /\
                          length jobs <= Z.to_nat max_jobs) /\
    (engine_starts b = false -> jobs = []) /\
    (forall cards, engine_starts b = true ->
       fetch b (LinkedinScraper.search_url skills location experience_years) = Some cards ->
       forall j, In j jobs <->
         exists k c, nth_error (py_take max_jobs cards) k = Some c /\
                     job_id j = Some (S k) /\
                     LinkedinScraper.parse_card (S k) c = Some j) /\
    LinkedinScraper.direct_contact_jobs (LinkedinScraper.categorize_jobs jobs) = [] /\
    LinkedinScraper.standard_jobs (LinkedinScraper.categorize_jobs jobs) = jobs.
Proof.
  assert (Hcat : forall jobs, Forall (fun j => hr_email j = None) jobs ->
    LinkedinScraper.direct_contact_jobs (LinkedinScraper.categorize_jobs jobs) = [] /\
    LinkedinScraper.standard_jobs (LinkedinScraper.categorize_jobs jobs) = jobs).
  { intros jobs H. unfold LinkedinScraper.categorize_jobs. rewrite categorize_fold. simpl.
    induction H as [|j js Hj _ [IH1 IH2]]; [split; reflexivity|].
    assert (E : has_email j = false) by (unfold has_email; now rewrite Hj).
    cbn [filter]. rewrite E. simpl. now rewrite IH1, IH2. }
  unfold LinkedinScraper.scrape_linkedin_jobs.
  destruct (engine_starts b) eqn:Eb; cbn [negb].
  2:{ exists [], []. repeat split; try constructor; try (simpl; lia); intros; congruence. }
  destruct (fetch b _) as [cards|] eqn:Ef.
  2:{ exists [], []. repeat split; try constructor; try (simpl; lia); intros; congruence. }
  destruct (linkedin_parse_cards_ids (py_take max_jobs cards) 1)
    as [ids [H1 [H2 [H3 [H4 H5]]]]].
  exists (LinkedinScraper.parse_cards 1 (py_take max_jobs cards)), ids.
  destruct (Hcat _ H4) as [Hc1 Hc2].
  split; [reflexivity|]. split; [exact H1|]. split; [exact H2|].
  split; [eapply Forall_impl; [|exact H3]; simpl; lia|].
  split.
  { intro Hm. pose proof (py_take_length_le max_jobs cards Hm). split; [|lia].
    eapply Forall_impl; [|exact H3]. simpl. lia. }
  split; [discriminate|].
  split; [|split; [exact Hc1 | exact Hc2]].
  intros cards' _ Hf j. injection Hf as <-.
  rewrite linkedin_parse_cards_pos. split.
  - intros [k [c [Hn Hp]]]. exists k, c. split; [exact Hn|].
    split; [exact (linkedin_parse_card_id _ _ _ Hp) | exact Hp].
  - intros [k [c [Hn [_ Hp]]]]. now exists k, c.
Qed.

(** On a page whose fourth card has no title, with [max_jobs = 5], the
    jobs are exactly the parses of cards 1, 2, 3 and 5, each with its
    position as id. *)
Lemma linkedin_scrape_ids_witness :
  exists jobs,
    LinkedinScraper.scrape_linkedin_jobs
      {| engine_starts := true; fetch := fun _ => Some Sample.page10 |}
      ["Python"] "India" 5 (Some 1%Z) = Ok jobs /\
    (forall j, In j jobs <->
       exists k c, nth_error (py_take 5 Sample.page10) k = Some c /\
                   job_id j = Some (S k) /\ LinkedinScraper.parse_card (S k) c = Some j) /\
    map job_id jobs = [Some 1; Some 2; Some 3; Some 5].
Proof.
  destruct (linkedin_scrape_ids {| engine_starts := true; fetch := fun _ => Some Sample.page10 |}
              ["Python"] "India" 5 (Some 1%Z))
    as [jobs [ids [Hs [_ [_ [_ [_ [_ [Hpos _]]]]]]]]].
  exists jobs. split; [exact Hs|]. split; [exact (Hpos Sample.page10 eq_refl eq_refl)|].
  vm_compute in Hs. injection Hs as <-. reflexivity.
Defined.

Lemma str_in_tail (c : ascii) (a : string) (n : string) :
  Py.str_in n (String c a) = false -> Py.str_in n a = false.
Proof. simpl. intro H. apply orb_false_iff in H. apply H. Qed.

Lemma split_comma_space_app (a b : string) :
  Py.str_in ", " a = false ->
  PySplit.split_comma_space (a ++ ", " ++ b) = a :: PySplit.split_comma_space b.
Proof.
  induction a as [|c a' IH]; intro H; [reflexivity|].
  pose proof (str_in_tail _ _ _ H) as H'.
  cbn [append PySplit.split_comma_space].
  destruct a' as [|d a''].
  - cbn [append]. rewrite andb_false_r. reflexivity.
  - cbn [append].
    assert (Hcd : Ascii.eqb c "," && Ascii.eqb d " " = false).
    { destruct (Ascii.eqb_spec c ","), (Ascii.eqb_spec d " "); subst; auto.
      exfalso. assert (Py.str_in ", " (", " ++ a'') = true)
        by (apply str_in_spec; now exists "", a'').
      simpl in *. congruence. }
    rewrite Hcd. specialize (IH H'). cbn [append] in IH. rewrite IH. reflexivity.
Qed.

Lemma split_comma_space_single (a : string) :
  Py.str_in ", " a = false -> PySplit.split_comma_space a = [a].
Proof.
  induction a as [|c a' IH]; intro H; [reflexivity|].
  pose proof (str_in_tail _ _ _ H) as H'.
  destruct a' as [|d a'']; [reflexivity|].
  cbn [PySplit.split_comma_space].
  assert (Hcd : Ascii.eqb c "," && Ascii.eqb d " " = false).
  { destruct (Ascii.eqb_spec c ","), (Ascii.eqb_spec d " "); subst; auto.
    exfalso. assert (Py.str_in ", " (", " ++ a'') = true)
      by (apply str_in_spec; now exists "", a'').
    simpl in *. congruence. }
  rewrite Hcd. specialize (IH H'). cbn [PySplit.split_comma_space] in IH.
  rewrite IH. reflexivity.
Qed.

Lemma split_join_comma_space (skills : list string) :
  skills <> [] -> Forall (fun s => Py.str_in ", " s = false) skills ->
  PySplit.split_comma_space (Py.join ", " skills) = skills.
Proof.
  induction skills as [|s skills IH]; intros Hne H; [contradiction|].
  inversion H as [|? ? Hs Hrest]; subst.
  destruct skills as [|s2 skills'].
  - simpl. now apply split_comma_space_single.
  - change (Py.join ", " (s :: s2 :: skills')) with (s ++ ", " ++ Py.join ", " (s2 :: skills')).
    rewrite split_comma_space_app by exact Hs. rewrite IH; [reflexivity|discriminate|exact Hrest].
Qed.


(** The [skills] column round trip of main.py: [upload_resume] stores
    [", ".join(skills)] of the skills list parsed from the model's JSON,
    and [get_resume] / [get_user_resumes] read it back with [split(', ')]
    (an empty column giving [[]]).  A list comes back unchanged when no
    skill contains ", " and the list is not [[""]]; an empty list (the
    fallback of [parse_resume_with_gemini]) comes back empty. *)
Theorem skills_column_round_trip :
  (forall skills : list string,
     skills <> [""] -> Forall (fun s => Py.str_in ", " s = false) skills ->
     MainDb.read_skills (Some (MainDb.stored_skills skills)) = skills).
Proof.
  intros skills Hne H. unfold MainDb.read_skills, MainDb.stored_skills.
  destruct skills as [|s rest]; [reflexivity|].
  destruct (String.eqb_spec (Py.join ", " (s :: rest)) "") as [E|E].
  - exfalso. destruct rest as [|s2 rest].
    + simpl in E. subst. now apply Hne.
    + change (Py.join ", " (s :: s2 :: rest)) with (s ++ ", " ++ Py.join ", " (s2 :: rest)) in E.
      destruct s; discriminate.
  - apply split_join_comma_space; [discriminate | exact H].
Qed.

Lemma skills_column_round_trip_witness :
  MainDb.read_skills (Some (MainDb.stored_skills ["Python"; "C#"; ""; "Spring Boot"]))
  = ["Python"; "C#"; ""; "Spring Boot"].
Proof.
  apply skills_column_round_trip; [discriminate|].
  repeat constructor.
Defined.

Lemma status_buckets_disjoint (st : option string) :
  Nat.b2n (MainDb.status_in [Some "rejected"; Some "accepted"] st) +
  Nat.b2n (MainDb.status_in [Some "applied"; Some "interviewing"] st) +
  Nat.b2n (MainDb.status_in [Some "pending"; None] st) <= 1 /\
  (MainDb.status_in [Some "rejected"; Some "accepted"; Some "applied";
                     Some "interviewing"; Some "pending"; None] st = true ->
   Nat.b2n (MainDb.status_in [Some "rejected"; Some "accepted"] st) +
   Nat.b2n (MainDb.status_in [Some "applied"; Some "interviewing"] st) +
   Nat.b2n (MainDb.status_in [Some "pending"; None] st) = 1).
Proof.
  destruct st as [s|]; [|simpl; split; [lia | reflexivity]].
  unfold MainDb.status_in. cbn [existsb].
  repeat match goal with
         | |- context [String.eqb ?x s] => destruct (String.eqb_spec x s) as [<-|]
         end; simpl; split; intros; try lia; discriminate.
Qed.

Lemma length_filter_cons {A} (f : A -> bool) (x : A) (l : list A) :
  length (filter f (x :: l)) = Nat.b2n (f x) + length (filter f l).
Proof. simpl. destruct (f x); reflexivity. Qed.

(** [get_dashboard_stats]: an unknown email gives four zeros; otherwise
    the three buckets never overlap, so [ended + running + pending] is at
    most [totalApplications], with equality when every saved job has one
    of the six statuses the endpoint knows (or none). *)
Theorem dashboard_stats_counts (d : MainDb.db) (email : string) :
  (MainDb.find_user d email = None ->
   MainDb.get_dashboard_stats d email =
   {| MainDb.total_applications := 0; MainDb.ended := 0;
      MainDb.running := 0; MainDb.pending := 0 |}) /\
  MainDb.ended (MainDb.get_dashboard_stats d email) +
  MainDb.running (MainDb.get_dashboard_stats d email) +
  MainDb.pending (MainDb.get_dashboard_stats d email)
  <= MainDb.total_applications (MainDb.get_dashboard_stats d email) /\
  (Forall (fun j => MainDb.status_in [Some "rejected"; Some "accepted"; Some "applied";
                                      Some "interviewing"; Some "pending"; None]
                                     (MainDb.sj_status j) = true) (MainDb.saved_jobs d) ->
   MainDb.ended (MainDb.get_dashboard_stats d email) +
   MainDb.running (MainDb.get_dashboard_stats d email) +
   MainDb.pending (MainDb.get_dashboard_stats d email)
   = MainDb.total_applications (MainDb.get_dashboard_stats d email)).
Proof.
  unfold MainDb.get_dashboard_stats.
  destruct (MainDb.find_user d email) as [u|].
  2:{ split; [reflexivity|]. simpl. split; [lia | reflexivity]. }
  split; [discriminate|]. cbn [MainDb.ended MainDb.running MainDb.pending
                              MainDb.total_applications].
  unfold MainDb.count_status.
  assert (Hgen : forall rows : list MainDb.saved_job_row,
    length (filter (fun j => MainDb.status_in [Some "rejected"; Some "accepted"] (MainDb.sj_status j)) rows) +
    length (filter (fun j => MainDb.status_in [Some "applied"; Some "interviewing"] (MainDb.sj_status j)) rows) +
    length (filter (fun j => MainDb.status_in [Some "pending"; None] (MainDb.sj_status j)) rows)
    <= length rows /\
    (Forall (fun j => MainDb.status_in [Some "rejected"; Some "accepted"; Some "applied";
                                        Some "interviewing"; Some "pending"; None]
                                       (MainDb.sj_status j) = true) rows ->
     length (filter (fun j => MainDb.status_in [Some "rejected"; Some "accepted"] (MainDb.sj_status j)) rows) +
     length (filter (fun j => MainDb.status_in [Some "applied"; Some "interviewing"] (MainDb.sj_status j)) rows) +
     length (filter (fun j => MainDb.status_in [Some "pending"; None] (MainDb.sj_status j)) rows)
     = length rows)).
  { induction rows as [|j rows [IH1 IH2]]; [simpl; split; [lia | reflexivity]|].
    rewrite !length_filter_cons. cbv beta.
    destruct (status_buckets_disjoint (MainDb.sj_status j)) as [D1 D2].
    split; [cbn [length]; lia|].
    intro H. inversion H as [|? ? Hj Hrest]; subst.
    specialize (D2 Hj). specialize (IH2 Hrest). cbn [length]. lia. }
  destruct (Hgen (filter (fun j => Nat.eqb (MainDb.sj_user j) (MainDb.u_id u)) (MainDb.saved_jobs d)))
    as [G1 G2].
  split; [exact G1|]. intro H. apply G2.
  rewrite Forall_forall in *. intros j Hj. apply filter_In in Hj. exact (H j (proj1 Hj)).
Qed.

Lemma dashboard_stats_counts_witness :
  MainDb.ended (MainDb.get_dashboard_stats
    Sample.user_db "a@b.in") +
  MainDb.running (MainDb.get_dashboard_stats
    Sample.user_db "a@b.in") +
  MainDb.pending (MainDb.get_dashboard_stats
    Sample.user_db "a@b.in")
  = MainDb.total_applications (MainDb.get_dashboard_stats
    Sample.user_db "a@b.in").
Proof.
  apply (proj2 (proj2 (dashboard_stats_counts
    Sample.user_db "a@b.in"))).
  repeat constructor.
Defined.

Lemma new_id_fresh (rows : list MainDb.saved_job_row) :
  forall j, In j rows -> MainDb.sj_id j < MainDb.new_id rows.
Proof.
  unfold MainDb.new_id. induction rows as [|r rows IH]; intros j Hj; [contradiction|].
  simpl in *. destruct Hj as [<-|Hj]; [lia|]. specialize (IH j Hj). lia.
Qed.

Lemma find_app_none {A} (f : A -> bool) (l1 l2 : list A) :
  find f l1 = None -> find f (l1 ++ l2) = find f l2.
Proof.
  induction l1 as [|x l1 IH]; simpl; [reflexivity|].
  destruct (f x); [discriminate | exact IH].
Qed.

Lemma NoDup_snoc {A} (l : list A) (x : A) :
  NoDup l -> ~ In x l -> NoDup (l ++ [x]).
Proof.
  induction l as [|a l IH]; intros H Hx; simpl.
  - constructor; [intros []| constructor].
  - inversion H as [|? ? Ha Hl]; subst. constructor.
    + rewrite in_app_iff. intros [Hin|[<-|[]]]; [contradiction|]. apply Hx. now left.
    + apply IH; [exact Hl|]. intro Hin. apply Hx. now right.
Qed.

Lemma NoDup_map_filter {A B} (keep : A -> bool) (key : A -> B) (rows : list A) :
  NoDup (map key rows) -> NoDup (map key (filter keep rows)).
Proof.
  intro H. induction rows as [|r rows IH]; [constructor|].
  cbn [map] in H. apply NoDup_cons_iff in H as [Hr Hrows].
  cbn [filter]. destruct (keep r); [|exact (IH Hrows)].
  cbn [map]. apply NoDup_cons; [|exact (IH Hrows)].
  rewrite in_map_iff. intros [y [Hy Hin]]. apply Hr.
  apply filter_In in Hin. rewrite <- Hy. exact (in_map key _ _ (proj1 Hin)).
Qed.

Lemma NoDup_map_same {A B} (f : A -> B) (l : list A) (x y : A) :
  NoDup (map f l) -> In x l -> In y l -> f x = f y -> x = y.
Proof.
  induction l as [|a l IH]; intros H Hx Hy E; [contradiction|].
  simpl in H. inversion H as [|? ? Ha Hl]; subst.
  destruct Hx as [<-|Hx], Hy as [<-|Hy]; auto.
  - exfalso. apply Ha. rewrite E. now apply in_map.
  - exfalso. apply Ha. rewrite <- E. now apply in_map.
Qed.

(** [save_job]: an unknown user gets a 500 (the 404 is swallowed by the
    generic handler); in a well-formed table a link the user already saved
    is answered with the id of that saved job and nothing changes;
    otherwise the job is appended with status "pending" and an id larger
    than every existing one, and saving the same link again (with any
    other details) answers "already saved" with that id and changes
    nothing. *)
Theorem save_job_spec (d : MainDb.db) (email title company location link : string)
    (hr_email : option string) :
  (MainDb.find_user d email = None ->
   MainDb.save_job d email title company location link hr_email = (d, MainDb.HttpFail 500)) /\
  (forall u j, MainDb.find_user d email = Some u -> rows_wf (MainDb.saved_jobs d) ->
   In j (MainDb.saved_jobs d) -> MainDb.sj_user j = MainDb.u_id u -> MainDb.sj_link j = link ->
   MainDb.save_job d email title company location link hr_email
   = (d, MainDb.AlreadySaved (MainDb.sj_id j))) /\
  (forall d' id,
   MainDb.save_job d email title company location link hr_email = (d', MainDb.Saved id) ->
   MainDb.users d' = MainDb.users d /\
   (forall j, In j (MainDb.saved_jobs d) -> MainDb.sj_id j < id) /\
   (exists row, MainDb.saved_jobs d' = (MainDb.saved_jobs d ++ [row])%list /\
      MainDb.sj_id row = id /\ MainDb.sj_link row = link /\
      MainDb.sj_status row = Some "pending") /\
   (forall title' company' location' hr_email',
      MainDb.save_job d' email title' company' location' link hr_email'
      = (d', MainDb.AlreadySaved id))).
Proof.
  unfold MainDb.save_job. split; [intro E; now rewrite E|]. split.
  - intros u j Hu Hwf Hj Hju Hjl. rewrite Hu.
    destruct (find _ (MainDb.saved_jobs d)) as [e|] eqn:F.
    + apply find_some in F as [Fin Ft]. apply andb_prop in Ft as [Fu Fl].
      apply Nat.eqb_eq in Fu. apply String.eqb_eq in Fl.
      assert (e = j).
      { apply (NoDup_map_same _ _ _ _ (proj2 Hwf) Fin Hj). simpl. congruence. }
      now subst.
    + exfalso. pose proof (find_none _ _ F j Hj) as C. simpl in C.
      rewrite Hju, Hjl, Nat.eqb_refl, String.eqb_refl in C. discriminate.
  - intros d' id H. destruct (MainDb.find_user d email) as [u|] eqn:Hu; [|discriminate].
    destruct (find _ (MainDb.saved_jobs d)) as [e|] eqn:F; [discriminate|].
    injection H as <- <-. split; [reflexivity|]. split; [apply new_id_fresh|].
    split; [eexists; split; [reflexivity|]; simpl; auto|].
    intros title' company' location' hr_email'.
    unfold MainDb.find_user in *. simpl. rewrite Hu.
    rewrite (find_app_none _ _ _ F). simpl.
    rewrite Nat.eqb_refl, String.eqb_refl. reflexivity.
Qed.

Lemma save_job_spec_witness :
  MainDb.save_job Sample.user_db "a@b.in" "Dev" "Acme" "Pune" "l2" None
  = (Sample.user_db, MainDb.AlreadySaved 2).
Proof.
  apply (proj1 (proj2 (save_job_spec Sample.user_db "a@b.in" "Dev" "Acme" "Pune" "l2" None))
           {| MainDb.u_id := 1; MainDb.u_email := "a@b.in" |}
           {| MainDb.sj_id := 2; MainDb.sj_user := 1; MainDb.sj_title := "Dev";
              MainDb.sj_company := "Acme"; MainDb.sj_location := "Pune";
              MainDb.sj_link := "l2"; MainDb.sj_hr_email := None;
              MainDb.sj_status := None |}).
  - reflexivity.
  - split; repeat constructor; simpl; intuition discriminate.
  - simpl. right. now left.
  - reflexivity.
  - reflexivity.
Defined.

(** [delete_saved_job]: an unknown user, an id that does not exist or a
    job of another user all give a 500 with the table unchanged (the 404s
    are swallowed by the generic handler); deleting one's own job removes
    exactly the rows with that id, keeps the users, and deleting the same
    id a second time fails with a 500. *)
Theorem delete_saved_job_spec (d : MainDb.db) (email : string) (job_id : nat) :
  (MainDb.find_user d email = None ->
   MainDb.delete_saved_job d email job_id = (d, MainDb.HttpFail 500)) /\
  (forall u, MainDb.find_user d email = Some u ->
   (forall j, In j (MainDb.saved_jobs d) -> MainDb.sj_id j = job_id ->
              MainDb.sj_user j <> MainDb.u_id u) ->
   MainDb.delete_saved_job d email job_id = (d, MainDb.HttpFail 500)) /\
  (forall u j, MainDb.find_user d email = Some u -> In j (MainDb.saved_jobs d) ->
   MainDb.sj_id j = job_id -> MainDb.sj_user j = MainDb.u_id u ->
   exists d',
     MainDb.delete_saved_job d email job_id = (d', MainDb.Deleted job_id) /\
     MainDb.users d' = MainDb.users d /\
     MainDb.saved_jobs d' = filter (fun r => negb (Nat.eqb (MainDb.sj_id r) job_id)) (MainDb.saved_jobs d) /\
     MainDb.delete_saved_job d' email job_id = (d', MainDb.HttpFail 500)).
Proof.
  unfold MainDb.delete_saved_job. split; [intro E; now rewrite E|]. split.
  - intros u Hu Hnot. rewrite Hu.
    destruct (find _ (MainDb.saved_jobs d)) as [e|] eqn:F; [|reflexivity].
    exfalso. apply find_some in F as [Fin Ft]. apply andb_prop in Ft as [Fi Fu].
    apply Nat.eqb_eq in Fi, Fu. exact (Hnot e Fin Fi Fu).
  - intros u j Hu Hj Hji Hju. rewrite Hu.
    destruct (find _ (MainDb.saved_jobs d)) as [e|] eqn:F.
    2:{ exfalso. pose proof (find_none _ _ F j Hj) as C. simpl in C.
        rewrite Hji, Hju, !Nat.eqb_refl in C. discriminate. }
    apply find_some in F as [Fin Ft]. apply andb_prop in Ft as [Fi Fu].
    apply Nat.eqb_eq in Fi. rewrite Fi.
    eexists. split; [reflexivity|]. split; [reflexivity|]. split; [reflexivity|].
    unfold MainDb.find_user in *. simpl. rewrite Hu.
    destruct (find _ (filter _ _)) as [e'|] eqn:F'; [|reflexivity].
    exfalso. apply find_some in F' as [Fin' Ft']. apply filter_In in Fin' as [_ Hk].
    apply andb_prop in Ft' as [Fi' _]. rewrite Fi' in Hk. discriminate.
Qed.

Lemma delete_saved_job_spec_witness :
  exists d',
    MainDb.delete_saved_job Sample.user_db "a@b.in" 1 = (d', MainDb.Deleted 1) /\
    MainDb.users d' = MainDb.users Sample.user_db /\
    MainDb.saved_jobs d' =
      filter (fun r => negb (Nat.eqb (MainDb.sj_id r) 1)) (MainDb.saved_jobs Sample.user_db) /\
    MainDb.delete_saved_job d' "a@b.in" 1 = (d', MainDb.HttpFail 500).
Proof.
  apply (proj2 (proj2 (delete_saved_job_spec Sample.user_db "a@b.in" 1))
           {| MainDb.u_id := 1; MainDb.u_email := "a@b.in" |}
           {| MainDb.sj_id := 1; MainDb.sj_user := 1; MainDb.sj_title := "Dev";
              MainDb.sj_company := "Acme"; MainDb.sj_location := "Pune";
              MainDb.sj_link := "l1"; MainDb.sj_hr_email := None;
              MainDb.sj_status := Some "applied" |}).
  - reflexivity.
  - simpl. now left.
  - reflexivity.
  - reflexivity.
Defined.

(** The two endpoints that change the saved-job table keep it well formed:
    ids stay distinct and no user has the same link saved twice. *)
Theorem saved_jobs_wf_preserved (d : MainDb.db) (email title company location link : string)
    (hr_email : option string) (job_id : nat) :
  rows_wf (MainDb.saved_jobs d) ->
  rows_wf (MainDb.saved_jobs (fst (MainDb.save_job d email title company location link hr_email))) /\
  rows_wf (MainDb.saved_jobs (fst (MainDb.delete_saved_job d email job_id))).
Proof.
  intros [Hid Hul]. split.
  - unfold MainDb.save_job.
    destruct (MainDb.find_user d email) as [u|]; [|split; assumption].
    destruct (find _ (MainDb.saved_jobs d)) as [e|] eqn:F; [split; assumption|].
    cbn [fst MainDb.saved_jobs]. unfold rows_wf. rewrite !map_app. split; apply NoDup_snoc; auto; simpl.
    + intro Hin. apply in_map_iff in Hin as [j [Hj Hin]].
      pose proof (new_id_fresh _ j Hin). lia.
    + intro Hin. apply in_map_iff in Hin as [j [Hj Hin]].
      injection Hj as Hu Hl. pose proof (find_none _ _ F j Hin) as C. simpl in C.
      rewrite Hu, Hl, Nat.eqb_refl, String.eqb_refl in C. discriminate.
  - unfold MainDb.delete_saved_job.
    destruct (MainDb.find_user d email) as [u|]; [|split; assumption].
    destruct (find _ (MainDb.saved_jobs d)) as [e|]; [|split; assumption].
    cbn [fst MainDb.saved_jobs]. split; apply NoDup_map_filter; assumption.
Qed.

Lemma saved_jobs_wf_preserved_witness :
  rows_wf (MainDb.saved_jobs (fst (MainDb.save_job Sample.user_db "a@b.in" "QA" "Beta"
                                      "Delhi" "l3" None))) /\
  rows_wf (MainDb.saved_jobs (fst (MainDb.delete_saved_job Sample.user_db "a@b.in" 2))).
Proof.
  apply saved_jobs_wf_preserved.
  split; repeat constructor; simpl; intuition discriminate.
Defined.

(** What [get_saved_jobs] lists after the other two endpoints: a job just
    saved is listed last, under its new id and link, with status
    "pending", after the jobs listed before; after a successful delete no
    listed job has the deleted id. *)
Theorem saved_jobs_listing (d : MainDb.db) (email title company location link : string)
    (hr_email : option string) (job_id : nat) :
  (forall d' id,
   MainDb.save_job d email title company location link hr_email = (d', MainDb.Saved id) ->
   exists vs v,
     MainDb.get_saved_jobs d email = Some vs /\
     MainDb.get_saved_jobs d' email = Some (vs ++ [v])%list /\
     MainDb.v_id v = id /\ MainDb.v_url v = link /\ MainDb.v_status v = "pending") /\
  (forall d',
   MainDb.delete_saved_job d email job_id = (d', MainDb.Deleted job_id) ->
   exists vs, MainDb.get_saved_jobs d' email = Some vs /\
              forall v, In v vs -> MainDb.v_id v <> job_id).
Proof.
  split.
  - intros d' id H. unfold MainDb.save_job in H.
    destruct (MainDb.find_user d email) as [u|] eqn:Hu; [|discriminate].
    destruct (find _ (MainDb.saved_jobs d)) as [e|]; [discriminate|].
    injection H as <- <-.
    unfold MainDb.get_saved_jobs, MainDb.find_user in *. simpl. rewrite Hu.
    rewrite filter_app, map_app. simpl. rewrite Nat.eqb_refl. simpl.
    eexists _, _. repeat split; reflexivity.
  - intros d' H. unfold MainDb.delete_saved_job in H.
    destruct (MainDb.find_user d email) as [u|] eqn:Hu; [|discriminate].
    destruct (find _ (MainDb.saved_jobs d)) as [e|] eqn:F; [|discriminate].
    injection H as <-. apply find_some in F as [_ Ft].
    apply andb_prop in Ft as [Fi _]. apply Nat.eqb_eq in Fi.
    unfold MainDb.get_saved_jobs, MainDb.find_user in *. simpl. rewrite Hu.
    eexists. split; [reflexivity|]. intros v Hv.
    apply in_map_iff in Hv as [j [<- Hj]]. apply filter_In in Hj as [Hj _].
    apply filter_In in Hj as [_ Hk]. simpl. intro E. rewrite E, Fi, Nat.eqb_refl in Hk.
    discriminate.
Qed.

Lemma saved_jobs_listing_witness :
  exists vs v,
    MainDb.get_saved_jobs Sample.user_db "a@b.in" = Some vs /\
    MainDb.get_saved_jobs (fst (MainDb.save_job Sample.user_db "a@b.in" "QA" "Beta" "Delhi" "l3" None))
      "a@b.in" = Some (vs ++ [v])%list /\
    MainDb.v_id v = 3 /\ MainDb.v_url v = "l3" /\ MainDb.v_status v = "pending".
Proof.
  apply (proj1 (saved_jobs_listing Sample.user_db "a@b.in" "QA" "Beta" "Delhi" "l3" None 0)).
  reflexivity.
Defined.
